(** * TOPSIS: a shallow embedding of [topsis_surya/core.py]

    The program reads a table, validates it together with a weights string and
    an impacts string, runs the vector-normalisation TOPSIS computation and
    writes the table back with a score and a rank per row.

    The embedding follows the Python source function by function.  The float64
    arithmetic of NumPy is an interface ([Float64]) with two instances: the
    IEEE binary64 numbers of the kernel ([Binary64], on which the model runs)
    and the real numbers ([Real64], exact arithmetic, for the properties that
    rounding and overflow do not keep).  The library functions whose result the program
    relies on but does not define (Python's [float], NumPy's [argsort]) are the
    fields of a second interface ([Runtime]); what the properties need of them
    is a hypothesis ([numpy_argsort]), and three runtimes serve as examples. *)

From Stdlib Require Import String Ascii List Bool Arith ZArith Lia.
From Stdlib Require Import Permutation Sorted DecimalString.
From Stdlib Require Import Reals Lra.
From Stdlib Require Import Floats Uint63.
Import ListNotations.

Local Open Scope nat_scope.
Local Open Scope list_scope.

(** ** Numbers *)

(** The operations of a float64 array element that the program uses. *)
Class Float64 : Type := {
  num : Type;
  zero : num;
  of_int : Z -> num;
  add : num -> num -> num;
  sub : num -> num -> num;
  mul : num -> num -> num;
  div : num -> num -> num;
  neg : num -> num;
  sqrt : num -> num;
  eqb : num -> num -> bool;
  ltb : num -> num -> bool
}.

Definition Reqb (x y : R) : bool := if Req_dec_T x y then true else false.
Definition Rltb (x y : R) : bool := if Rlt_dec x y then true else false.

(** The real numbers: float64 without rounding, overflow or NaN. *)
Definition Real64 : Float64 := {|
  num := R;
  zero := 0%R;
  of_int := IZR;
  add := Rplus;
  sub := Rminus;
  mul := Rmult;
  div := Rdiv;
  neg := Ropp;
  sqrt := R_sqrt.sqrt;
  eqb := Reqb;
  ltb := Rltb
|}.

Definition float_of_Z (z : Z) : float :=
  if (z <? 0)%Z then PrimFloat.opp (PrimFloat.of_uint63 (Uint63.of_Z (- z)))
  else PrimFloat.of_uint63 (Uint63.of_Z z).

(** IEEE 754 binary64, the dtype of the arrays of the program. *)
Definition Binary64 : Float64 := {|
  num := float;
  zero := PrimFloat.zero;
  of_int := float_of_Z;
  add := PrimFloat.add;
  sub := PrimFloat.sub;
  mul := PrimFloat.mul;
  div := PrimFloat.div;
  neg := PrimFloat.opp;
  sqrt := PrimFloat.sqrt;
  eqb := PrimFloat.eqb;
  ltb := PrimFloat.ltb
|}.

(** [x != x], true of NaN only. *)
Definition isnan `{Float64} (x : num) : bool := negb (eqb x x).

(** The order NumPy sorts floats by: [a < b || (b != b && a == a)], that is
    [<] with NaN after every number. *)
Definition npy_lt `{Float64} (a b : num) : bool :=
  ltb a b || (negb (eqb b b) && eqb a a).

(** [np.maximum] and [np.minimum] as the reductions [max] and [min] apply
    them: a NaN operand is the result. *)
Definition maximum `{Float64} (a b : num) : num :=
  if isnan a then a else if ltb b a then a else b.

Definition minimum `{Float64} (a b : num) : num :=
  if isnan a then a else if ltb a b then a else b.

(** ** Strings *)

(** [c.isspace()] for the characters of an ASCII string. *)
Definition isspace (c : ascii) : bool :=
  let n := nat_of_ascii c in
  ((9 <=? n) && (n <=? 13)) || ((28 <=? n) && (n <=? 32)).

Fixpoint lstrip (s : string) : string :=
  match s with
  | String c r => if isspace c then lstrip r else s
  | EmptyString => EmptyString
  end.

Fixpoint rstrip (s : string) : string :=
  match s with
  | EmptyString => EmptyString
  | String c r =>
      match rstrip r with
      | EmptyString => if isspace c then EmptyString else String c EmptyString
      | r' => String c r'
      end
  end.

(** [s.strip()] *)
Definition strip (s : string) : string := rstrip (lstrip s).

(** [s.split(sep)] for a one-character separator: never an empty list. *)
Fixpoint split (sep : ascii) (s : string) : list string :=
  match s with
  | EmptyString => [EmptyString]
  | String c r =>
      if Ascii.eqb c sep then EmptyString :: split sep r
      else match split sep r with
           | tok :: toks => String c tok :: toks
           | [] => [String c EmptyString]
           end
  end.

(** Truth value of a string: non-empty. *)
Definition truthy (s : string) : bool :=
  match s with EmptyString => false | String _ _ => true end.

(** [[t.strip() for t in arg.split(",") if t.strip()]] *)
Definition tokens (arg : string) : list string :=
  filter truthy (map strip (split "," arg)).

(** [str(n)] of an integer. *)
Definition str_of_int (n : Z) : string := NilZero.string_of_int (Z.to_int n).

(** *** Decimal literals *)

Definition digit_of (c : ascii) : option Z :=
  let n := Z.of_nat (nat_of_ascii c) in
  if ((48 <=? n) && (n <=? 57))%Z then Some (n - 48)%Z else None.

(** Reads a run of digits: the value accumulated on [acc], the number of
    digits read, and the rest of the string. *)
Fixpoint read_digits (s : string) (acc : Z) (cnt : nat) : Z * nat * string :=
  match s with
  | String c r =>
      match digit_of c with
      | Some d => read_digits r (10 * acc + d)%Z (S cnt)
      | None => (acc, cnt, s)
      end
  | EmptyString => (acc, cnt, s)
  end.

Definition read_sign (s : string) : bool * string :=
  match s with
  | String "-" r => (true, r)
  | String "+" r => (false, r)
  | _ => (false, s)
  end.

Definition is_e (c : ascii) : bool := Ascii.eqb c "e" || Ascii.eqb c "E".

(** [sign digits [. digits] [e sign digits]] with at least one mantissa digit,
    read as (negative?, mantissa, decimal exponent). *)
Definition decimal_literal (s : string) : option (bool * Z * Z) :=
  let '(sg, s1) := read_sign s in
  let '(ip, n1, s2) := read_digits s1 0%Z 0 in
  let '(m, n2, s3) :=
    match s2 with
    | String "." r => read_digits r ip 0
    | _ => (ip, 0, s2)
    end in
  if n1 + n2 =? 0 then None
  else
    match s3 with
    | EmptyString => Some (sg, m, (- Z.of_nat n2)%Z)
    | String c r =>
        if is_e c then
          let '(sge, r1) := read_sign r in
          let '(ev, n3, r2) := read_digits r1 0%Z 0 in
          if n3 =? 0 then None
          else match r2 with
               | EmptyString =>
                   Some (sg, m, ((if sge then - ev else ev) - Z.of_nat n2)%Z)
               | String _ _ => None
               end
        else None
    end.

(** The number a decimal literal denotes: exact on [Real64]; on [Binary64]
    correctly rounded when the mantissa is below 2^53 and the exponent within
    22 in size (one rounding of an exact quotient or product). *)
Definition float_literal `{Float64} (s : string) : option num :=
  match decimal_literal s with
  | Some (sg, m, e) =>
      let v := if (0 <=? e)%Z then mul (of_int m) (of_int (10 ^ e))
               else div (of_int m) (of_int (10 ^ (- e))) in
      Some (if sg then neg v else v)
  | None => None
  end.

(** ** The library functions the program calls *)

(** Python's [float(str)] ([None] for [ValueError]) and NumPy's [argsort] with
    its default [kind], on a float64 array and on an index array. *)
Class Runtime (F : Float64) : Type := {
  float_of_str : string -> option num;
  argsort_float : list num -> list nat;
  argsort_int : list nat -> list nat
}.

(** ** Results of a call *)

(** A call returns, or ends the process through [sys.exit] after printing
    (the lines printed and the exit code), or raises an exception nothing
    catches. *)
Inductive result (A : Type) : Type :=
| Ok (a : A)
| SystemExit (stdout : list string) (code : Z)
| Uncaught (exc : string).

Arguments Ok {A} a.
Arguments SystemExit {A} stdout code.
Arguments Uncaught {A} exc.

Definition bind {A B : Type} (r : result A) (k : A -> result B) : result B :=
  match r with
  | Ok a => k a
  | SystemExit out code => SystemExit out code
  | Uncaught exc => Uncaught exc
  end.

Notation "x <- r ;; k" := (bind r (fun x => k))
  (at level 61, r at next level, right associativity).
Notation "' p <- r ;; k" := (bind r (fun x => let p := x in k))
  (at level 61, p pattern, r at next level, right associativity).

(** [error_and_exit(message)]: prints [Error: message] and exits with 1. *)
Definition error_and_exit {A : Type} (message : string) : result A :=
  SystemExit [("Error: " ++ message)%string] 1%Z.

(** ** Lists as arrays *)

Fixpoint zip_with {A B C : Type} (f : A -> B -> C) (u : list A) (v : list B)
  : list C :=
  match u, v with
  | x :: u', y :: v' => f x y :: zip_with f u' v'
  | _, _ => []
  end.

(** All-or-nothing conversion of a list. *)
Fixpoint traverse {A B : Type} (f : A -> option B) (l : list A)
  : option (list B) :=
  match l with
  | [] => Some []
  | x :: r =>
      match f x with
      | Some y =>
          match traverse f r with
          | Some ys => Some (y :: ys)
          | None => None
          end
      | None => None
      end
  end.

(** A sort of the positions of [keys] by insertion from the right; [stop x y]
    says that [x] is put in front of [y]. *)
Fixpoint insert_by {A : Type} (stop : A -> A -> bool) (x : nat * A)
  (l : list (nat * A)) : list (nat * A) :=
  match l with
  | [] => [x]
  | y :: r => if stop (snd x) (snd y) then x :: l else y :: insert_by stop x r
  end.

Definition argsort_by {A : Type} (stop : A -> A -> bool) (keys : list A)
  : list nat :=
  map fst (fold_right (insert_by stop) [] (combine (seq 0 (length keys)) keys)).

(** Equal keys keep the order of their positions. *)
Definition stable_argsort {A : Type} (lt : A -> A -> bool) : list A -> list nat :=
  argsort_by (fun x y => negb (lt y x)).

(** Equal keys come out in the reverse order of their positions. *)
Definition reversing_argsort {A : Type} (lt : A -> A -> bool)
  : list A -> list nat :=
  argsort_by (fun x y => lt x y).

(** A runtime whose sorts are stable, as NumPy's insertion sort of a short
    array is, and whose [float] reads decimal literals. *)
Definition StableRuntime (F : Float64) : Runtime F := {|
  float_of_str := float_literal;
  argsort_float := stable_argsort npy_lt;
  argsort_int := stable_argsort Nat.ltb
|}.

(** A runtime that sorts as well, and breaks ties the other way round. *)
Definition ReversingRuntime (F : Float64) : Runtime F := {|
  float_of_str := float_literal;
  argsort_float := reversing_argsort npy_lt;
  argsort_int := stable_argsort Nat.ltb
|}.

(** *** NumPy's portable [argsort]

    The default [kind] of [argsort] where NumPy has no vectorised sort for the
    machine: the quicksort on positions of [npysort/quicksort.cpp], with its
    median of three, its partition and its insertion sort of the ranges of at
    most 17 positions.  This is not code of the program: it is one more
    runtime on which the program is run. *)

Section NumpyQuicksort.

Variable A : Type.
Variable lt : A -> A -> bool.
Variable d : A.
Variable v : list A.

(** [tosort[p]], [v[tosort[p]]], [tosort[p] = x] and the exchange of two
    entries. *)
Definition at_ (t : list nat) (p : nat) : nat := nth p t 0.

Definition key (t : list nat) (p : nat) : A := nth (at_ t p) v d.

Fixpoint put (t : list nat) (p x : nat) : list nat :=
  match t, p with
  | [], _ => []
  | _ :: r, 0 => x :: r
  | y :: r, S p' => y :: put r p' x
  end.

Definition swap (t : list nat) (p q : nat) : list nat :=
  put (put t p (at_ t q)) q (at_ t p).

(** [do ++pi; while (v[*pi] < vp)] and [do --pj; while (vp < v[*pj])] *)
Fixpoint scan_up (fuel : nat) (t : list nat) (vp : A) (pi : nat) : nat :=
  match fuel with
  | 0 => pi
  | S f => if lt (key t (S pi)) vp then scan_up f t vp (S pi) else S pi
  end.

Fixpoint scan_down (fuel : nat) (t : list nat) (vp : A) (pj : nat) : nat :=
  match fuel with
  | 0 => pj
  | S f => if lt vp (key t (pj - 1)) then scan_down f t vp (pj - 1) else pj - 1
  end.

Fixpoint hoare (fuel : nat) (t : list nat) (vp : A) (pi pj : nat)
  : list nat * nat :=
  match fuel with
  | 0 => (t, pi)
  | S f =>
      let pi' := scan_up (length t) t vp pi in
      let pj' := scan_down (length t) t vp pj in
      if pj' <=? pi' then (t, pi') else hoare f (swap t pi' pj') vp pi' pj'
  end.

Definition partition (t : list nat) (pl pr : nat) : list nat * nat :=
  let pm := pl + (pr - pl) / 2 in
  let t := if lt (key t pm) (key t pl) then swap t pm pl else t in
  let t := if lt (key t pr) (key t pm) then swap t pr pm else t in
  let t := if lt (key t pm) (key t pl) then swap t pm pl else t in
  let vp := key t pm in
  let t := swap t pm (pr - 1) in
  let '(t, pi) := hoare (length t) t vp pl (pr - 1) in
  (swap t pi (pr - 1), pi).

(** The insertion sort of the positions [pl..pr]. *)
Fixpoint sift (fuel : nat) (t : list nat) (vi pl pj : nat) : list nat :=
  match fuel with
  | 0 => put t pj vi
  | S f =>
      if (pl <? pj) && lt (nth vi v d) (key t (pj - 1))
      then sift f (put t pj (at_ t (pj - 1))) vi pl (pj - 1)
      else put t pj vi
  end.

Definition insertion (t : list nat) (pl pr : nat) : list nat :=
  fold_left (fun t pi => sift (length t) t (at_ t pi) pl pi)
    (seq (pl + 1) (pr - pl)) t.

(** Beyond the depth bound NumPy goes on with heapsort, which is not
    transcribed: the result is then [None]. *)
Fixpoint aquicksort_from (depth : nat) (t : list nat) (pl pr : nat)
  : option (list nat) :=
  if 16 <? pr - pl then
    match depth with
    | 0 => None
    | S depth' =>
        let '(t, pi) := partition t pl pr in
        match aquicksort_from depth' t pl (pi - 1) with
        | Some t' => aquicksort_from depth' t' (pi + 1) pr
        | None => None
        end
    end
  else Some (insertion t pl pr).

Definition npy_aquicksort : option (list nat) :=
  aquicksort_from (2 * Nat.log2 (length v)) (seq 0 (length v)) 0 (length v - 1).

End NumpyQuicksort.

(** Where the quicksort above gives no result the positions are left as they
    are; the examples below check that this is not the case on them. *)
Definition portable_argsort {A : Type} (lt : A -> A -> bool) (d : A)
  (keys : list A) : list nat :=
  match npy_aquicksort A lt d keys with
  | Some t => t
  | None => seq 0 (length keys)
  end.

Definition PortableRuntime (F : Float64) : Runtime F := {|
  float_of_str := float_literal;
  argsort_float := portable_argsort npy_lt zero;
  argsort_int := portable_argsort Nat.ltb 0
|}.

(** ** The program *)

Section Program.

Context {F : Float64} {RT : Runtime F}.

(** *** [parse_and_validate] *)

Definition is_impact (imp : string) : bool :=
  String.eqb imp "+" || String.eqb imp "-".

Definition parse_and_validate (weights_arg impacts_arg : string) (ncols : Z)
  : result (list num * list string) :=
  match traverse float_of_str (tokens weights_arg) with
  | None => error_and_exit "Weights must be numeric and separated by commas"
  | Some weights =>
      let impacts := tokens impacts_arg in
      if negb (forallb is_impact impacts) then
        error_and_exit "Impacts must be '+' or '-' and separated by commas"
      else if negb (Z.of_nat (length weights) =? ncols)%Z
              || negb (Z.of_nat (length impacts) =? ncols)%Z then
        error_and_exit ("Weights and impacts count must equal criteria count ("
                        ++ str_of_int ncols ++ ")")%string
      else Ok (weights, impacts)
  end.

(** *** Tables *)

(** A cell of a table as [pd.read_csv] types it: a float, an integer, a
    string of a column that is not numeric throughout, or a missing value. *)
Inductive cell : Type :=
| Num (x : num)
| Int (n : Z)
| Text (s : string)
| NA.

(** A data frame: its columns in order, each a name and the cells of the rows
    in order.  Every column of a frame has one cell per row. *)
Definition DataFrame : Type := list (string * list cell).

(** [df.shape] *)
Definition shape0 (df : DataFrame) : nat :=
  match df with
  | [] => 0
  | (_, cells) :: _ => length cells
  end.

Definition shape1 (df : DataFrame) : nat := length df.

Definition rectangular (df : DataFrame) : Prop :=
  Forall (fun col => length (snd col) = shape0 df) df.

(** What [pd.read_csv(path)] finds at a path. *)
Inductive file : Type :=
| Missing
| Unreadable (e : string)
| Table (df : DataFrame).

Definition filesystem : Type := string -> file.

(** [df.to_csv(path, index=False)] *)
Definition to_csv (fs : filesystem) (path : string) (df : DataFrame)
  : filesystem :=
  fun p => if String.eqb p path then Table df else fs p.

(** [pd.to_numeric(..., errors="coerce")] on one cell, [None] for NaN.  The
    conversion of a string is taken to be that of [float]. *)
Definition to_numeric (c : cell) : option num :=
  match c with
  | Num x => if isnan x then None else Some x
  | Int n => Some (of_int n)
  | Text s => float_of_str s
  | NA => None
  end.

(** [.notna()] *)
Definition notna (x : option num) : bool :=
  match x with Some _ => true | None => false end.

(** [df.iloc[:, 1:]] *)
Definition iloc_from1 (df : DataFrame) : DataFrame := tl df.

(** *** [read_and_validate_csv] *)

Definition read_and_validate_csv (fs : filesystem) (path : string)
  : result DataFrame :=
  match fs path with
  | Missing => error_and_exit "File not found"
  | Unreadable e => error_and_exit ("Unable to read file: " ++ e)%string
  | Table df =>
      if shape1 df <? 3 then
        error_and_exit "Input file must have at least 3 columns"
      else if negb (forallb (fun col => forallb notna (map to_numeric (snd col)))
                      (iloc_from1 df)) then
        error_and_exit "Columns 2 onwards must contain only numeric values"
      else Ok df
  end.

(** *** Arrays *)

(** A two-dimensional float64 array of shape [(length rows, ncols)]: every row
    has [ncols] entries. *)
Record ndarray2 : Type := Array2 { ncols : nat; rows : list (list num) }.

Definition well_shaped (a : ndarray2) : Prop :=
  Forall (fun row => length row = ncols a) (rows a).

(** [a[i][j]] *)
Definition entry (a : ndarray2) (i j : nat) : num :=
  nth j (nth i (rows a) []) zero.

(** [a[:, j]] *)
Definition column (a : ndarray2) (j : nat) : list num :=
  map (fun row => nth j row zero) (rows a).

(** [.to_numpy(dtype=float)] of a frame of [n] rows; [None] when a cell has
    no float64 value. *)
Definition to_numpy (df : DataFrame) (n : nat) : option ndarray2 :=
  match traverse (fun i => traverse (fun col => to_numeric (nth i (snd col) NA)) df)
          (seq 0 n) with
  | Some rs => Some (Array2 (length df) rs)
  | None => None
  end.

(** [np.linalg.norm] of a vector: [sqrt(add.reduce(x * x))]. *)
Definition norm (v : list num) : num :=
  sqrt (fold_left add (map (fun x => mul x x) v) zero).

Definition norm_axis0 (a : ndarray2) : list num :=
  map (fun j => norm (column a j)) (seq 0 (ncols a)).

Definition norm_axis1 (a : ndarray2) : list num := map norm (rows a).

(** [a op v] for a vector [v] of [ncols a] entries: [v] against every row. *)
Definition broadcast (op : num -> num -> num) (a : ndarray2) (v : list num)
  : ndarray2 :=
  Array2 (ncols a) (map (fun row => zip_with op row v) (rows a)).

(** A reduction of a non-empty vector, from its first entry on. *)
Definition reduce (op : num -> num -> num) (v : list num) : num :=
  match v with
  | [] => zero
  | x :: r => fold_left op r x
  end.

Definition max_axis0 (a : ndarray2) : list num :=
  map (fun j => reduce maximum (column a j)) (seq 0 (ncols a)).

Definition min_axis0 (a : ndarray2) : list num :=
  map (fun j => reduce minimum (column a j)) (seq 0 (ncols a)).

(** [np.where(c, x, y)] *)
Fixpoint where_ (c : list bool) (x y : list num) : list num :=
  match c, x, y with
  | b :: c', u :: x', v :: y' => (if b then u else v) :: where_ c' x' y'
  | _, _, _ => []
  end.

(** *** [topsis_calculation] *)

(** [(data / norms) * weights] *)
Definition weighted_matrix (data : ndarray2) (weights : list num) : ndarray2 :=
  broadcast mul (broadcast div data (norm_axis0 data)) weights.

Definition ideal_best (impacts : list string) (weighted : ndarray2) : list num :=
  where_ (map (fun imp => String.eqb imp "+") impacts)
    (max_axis0 weighted) (min_axis0 weighted).

Definition ideal_worst (impacts : list string) (weighted : ndarray2) : list num :=
  where_ (map (fun imp => String.eqb imp "+") impacts)
    (min_axis0 weighted) (max_axis0 weighted).

(** Distance of every row to a point. *)
Definition separation (weighted : ndarray2) (ideal : list num) : list num :=
  norm_axis1 (broadcast sub weighted ideal).

(** [np.divide(s_worst, s_best + s_worst, out=zeros, where=... != 0)] on one
    entry. *)
Definition closeness (s_best s_worst : num) : num :=
  let d := add s_best s_worst in
  if negb (eqb d zero) then div s_worst d else zero.

Definition topsis_scores (s_best s_worst : list num) : list num :=
  zip_with closeness s_best s_worst.

(** [np.argsort(-scores).argsort() + 1] *)
Definition topsis_ranks (scores : list num) : list nat :=
  map (fun k => k + 1) (argsort_int (argsort_float (map neg scores))).

Definition topsis_calculation (data : ndarray2) (weights : list num)
  (impacts : list string) : result (list num * list nat) :=
  let norms := norm_axis0 data in
  if existsb (fun n => eqb n zero) norms then
    error_and_exit "Column with all zeros detected"
  else
    let weighted := weighted_matrix data weights in
    let s_best := separation weighted (ideal_best impacts weighted) in
    let s_worst := separation weighted (ideal_worst impacts weighted) in
    let scores := topsis_scores s_best s_worst in
    Ok (scores, topsis_ranks scores).

(** *** [run_topsis] and [main] *)

(** [df[name] = values]: the column of that name gets the values, and when
    there is none a new last column is added. *)
Definition set_column (df : DataFrame) (name : string) (values : list cell)
  : DataFrame :=
  if existsb (fun col => String.eqb (fst col) name) df then
    map (fun col => if String.eqb (fst col) name then (fst col, values) else col) df
  else df ++ [(name, values)].

Definition run_topsis (fs : filesystem)
  (input_path weights_arg impacts_arg output_path : string) : result filesystem :=
  df <- read_and_validate_csv fs input_path ;;
  let ncols := (Z.of_nat (shape1 df) - 1)%Z in
  ' (weights, impacts) <- parse_and_validate weights_arg impacts_arg ncols ;;
  match to_numpy (iloc_from1 df) (shape0 df) with
  | None => Uncaught "ValueError"
  | Some data =>
      ' (scores, ranks) <- topsis_calculation data weights impacts ;;
      let df1 := set_column df "Topsis Score" (map Num scores) in
      let df2 := set_column df1 "Rank" (map (fun r => Int (Z.of_nat r)) ranks) in
      Ok (to_csv fs output_path df2)
  end.

(** How a run of the program ends. *)
Record process : Type := Process {
  files : filesystem;
  stdout : list string;
  exit_code : Z
}.

Definition main (argv : list string) (fs : filesystem) : process :=
  let r :=
    match argv with
    | [a; b; c; d] =>
        fs' <- run_topsis fs a b c d ;;
        Ok (fs', [("Result written to " ++ d)%string])
    | _ =>
        error_and_exit
          "Usage: <InputDataFile> <Weights> <Impacts> <OutputResultFile>"
    end in
  match r with
  | Ok (fs', out) => Process fs' out 0
  | SystemExit out code => Process fs out code
  | Uncaught _ => Process fs [] 1
  end.

End Program.

(** ** Vocabulary of the properties *)

(** A call fails: it prints one [Error:] line and exits with code 1. *)
Definition fails {A : Type} (r : result A) : Prop :=
  exists message, r = error_and_exit message.

(** What NumPy documents of [argsort]: the result lists every position once,
    and the keys taken in that order are sorted.  The default sort is not
    stable, so nothing is said of the order of equal keys. *)
Record sorts {A : Type} (lt : A -> A -> bool) (d : A)
  (argsort : list A -> list nat) : Prop := {
  sorts_perm : forall keys, Permutation (argsort keys) (seq 0 (length keys));
  sorts_sorted : forall keys,
    StronglySorted (fun a b => lt b a = false)
      (map (fun i => nth i keys d) (argsort keys))
}.

Definition numpy_argsort (F : Float64) (RT : Runtime F) : Prop :=
  sorts npy_lt zero argsort_float /\ sorts Nat.ltb 0 argsort_int.

(** The ranks a stable descending sort of the scores gives: a row is ranked
    after the rows of a greater score and the earlier rows of an equal one. *)
Definition stable_rank {F : Float64} (scores : list num) (i : nat) : nat :=
  let s := nth i scores zero in
  1 + length (filter (fun j => npy_lt (neg (nth j scores zero)) (neg s)
                              || (negb (npy_lt (neg s) (neg (nth j scores zero)))
                                  && (j <? i)))
               (seq 0 (length scores))).

Definition stable_ranks {F : Float64} (scores : list num) : list nat :=
  map (stable_rank scores) (seq 0 (length scores)).

(** The names of the columns of a frame. *)
Definition column_names {F : Float64} (df : @DataFrame F) : list string :=
  map fst df.

(** Two runs end in the same way: the same lines printed and the same exit
    code, or the same table written at their output paths. *)
Definition same_outcome {F : Float64} (r1 r2 : result (@filesystem F))
  (path1 path2 : string) : Prop :=
  match r1, r2 with
  | Ok fs1, Ok fs2 => fs1 path1 = fs2 path2
  | SystemExit out1 code1, SystemExit out2 code2 => out1 = out2 /\ code1 = code2
  | Uncaught e1, Uncaught e2 => e1 = e2
  | _, _ => False
  end.


(** The output the run is to write when it only adds its two columns to the
    table: the table, then a column of scores and a column of ranks. *)
Definition appends_two_columns {F : Float64} (df out : @DataFrame F) : Prop :=
  exists scores ranks,
    out = df ++ [("Topsis Score"%string, scores); ("Rank"%string, ranks)].

(** [m] is the greatest, or the least, entry of column [j] of an array of
    reals. *)
Definition max_over_rows (a : @ndarray2 Real64) (j : nat) (m : R) : Prop :=
  (exists i, i < length (rows a) /\ entry a i j = m) /\
  (forall i, i < length (rows a) -> (entry a i j <= m)%R).

Definition min_over_rows (a : @ndarray2 Real64) (j : nat) (m : R) : Prop :=
  (exists i, i < length (rows a) /\ entry a i j = m) /\
  (forall i, i < length (rows a) -> (m <= entry a i j)%R).

(** The table a run computes from what it reads at the input path: the
    part of [run_topsis] before the table is written. *)
Definition augmented_table {F : Float64} {RT : Runtime F} (f : file)
  (weights_arg impacts_arg : string) : result DataFrame :=
  df <- read_and_validate_csv (fun _ => f) EmptyString ;;
  ' (weights, impacts) <-
    parse_and_validate weights_arg impacts_arg (Z.of_nat (shape1 df) - 1) ;;
  match to_numpy (iloc_from1 df) (shape0 df) with
  | None => Uncaught "ValueError"
  | Some data =>
      ' (scores, ranks) <- topsis_calculation data weights impacts ;;
      Ok (set_column (set_column df "Topsis Score" (map Num scores)) "Rank"
            (map (fun r => Int (Z.of_nat r)) ranks))
  end.

(** ** Example inputs *)

(** Two alternatives with the same values. *)
Definition tied_data : @ndarray2 Real64 :=
  @Array2 Real64 2 [[1%R; 1%R]; [1%R; 1%R]].

Definition unit_weights : list (@num Real64) := [1%R; 1%R].

(** Five alternatives on four criteria. *)
Definition phones : @DataFrame Binary64 :=
  [("Model"%string,
    [Text "M1"; Text "M2"; Text "M3"; Text "M4"; Text "M5"]);
   ("Price"%string, [Int 250; Int 200; Int 300; Int 275; Int 225]);
   ("Storage"%string, [Int 16; Int 16; Int 32; Int 32; Int 16]);
   ("Camera"%string, [Int 12; Int 8; Int 16; Int 8; Int 16]);
   ("Looks"%string, [Int 5; Int 3; Int 4; Int 4; Int 2])].

(** A table one of whose criteria is itself called [Rank]. *)
Definition league : @DataFrame Binary64 :=
  [("Team"%string, [Text "A"; Text "B"; Text "C"]);
   ("Rank"%string, [Int 1; Int 2; Int 3]);
   ("Points"%string, [Int 10; Int 30; Int 20])].

(** A table with a criterion of zeros only. *)
Definition flat : @DataFrame Binary64 :=
  [("Item"%string, [Text "A"; Text "B"]);
   ("Cost"%string, [Int 0; Int 0]);
   ("Gain"%string, [Int 1; Int 2])].

(** Eighteen alternatives with the same values. *)
Definition clones : @DataFrame Binary64 :=
  [("Item"%string, map (fun n => Int (Z.of_nat n)) (seq 1 18));
   ("Cost"%string, repeat (Int 1) 18);
   ("Gain"%string, repeat (Int 1) 18)].

Definition disk : @filesystem Binary64 :=
  fun path =>
    if String.eqb path "phones.csv" then Table phones
    else if String.eqb path "clones.csv" then Table clones
    else if String.eqb path "league.csv" then Table league
    else if String.eqb path "flat.csv" then Table flat
    else if String.eqb path "broken.csv" then Unreadable "No columns to parse"
    else Missing.

(** A table of reals, and the place it is read from. *)
Definition items : @DataFrame Real64 :=
  [("Item"%string, [Text "A"; Text "B"]);
   ("Cost"%string, [@Num Real64 1%R; @Num Real64 1%R]);
   ("Gain"%string, [@Num Real64 1%R; @Num Real64 1%R])].

Definition shelf : @filesystem Real64 :=
  fun path => if String.eqb path "items.csv" then Table items else Missing.

(** ** The entry points *)

(** [main(argv)]: the arguments given, or [sys.argv[1:]] when there are
    none. *)
Definition main_from {F : Float64} {RT : Runtime F}
  (argv : option (list string)) (sys_argv : list string) (fs : filesystem)
  : process :=
  main (match argv with Some args => args | None => tl sys_argv end) fs.

(** [cli()] *)
Definition cli {F : Float64} {RT : Runtime F} (sys_argv : list string)
  (fs : filesystem) : process :=
  main_from None sys_argv fs.

(** ** More vocabulary *)

(** The characters of a string. *)
Definition chars (s : string) : list ascii := list_ascii_of_string s.

(** What every token is: not empty, without white space at its ends, without
    a comma. *)
Definition clean_token (t : string) : Prop :=
  t <> EmptyString /\ strip t = t /\ ~ In ","%char (chars t).

(** A table with its header and no row. *)
Definition header_only : @DataFrame Binary64 :=
  [("Item"%string, []); ("Cost"%string, []); ("Gain"%string, [])].

Definition archive : @filesystem Binary64 :=
  fun path =>
    if String.eqb path "empty.csv" then Table header_only
    else if String.eqb path "phones.csv" then Table phones
    else Missing.

(** The files after the run on [league.csv], and after the run on
    [phones.csv] that writes over its input. *)
Definition disk_after_league : @filesystem Binary64 :=
  match @run_topsis Binary64 (StableRuntime Binary64) disk "league.csv" "1,1"
          "-,+" "out.csv" with
  | Ok fs' => fs'
  | _ => disk
  end.

Definition archive_after_phones : @filesystem Binary64 :=
  match @run_topsis Binary64 (StableRuntime Binary64) archive "phones.csv"
          "1,1,1,1" "-,+,+,+" "phones.csv" with
  | Ok fs' => fs'
  | _ => archive
  end.

(** Two runs on tables that share their criteria columns agree: the same
    error, or the same scores and ranks set in the two tables. *)
Definition same_scores {F : Float64} (r1 r2 : result (@filesystem F))
  (df1 df2 : @DataFrame F) (output1 output2 : string) : Prop :=
  match r1, r2 with
  | Ok fs1, Ok fs2 =>
      exists scores ranks,
        fs1 output1
        = Table (set_column (set_column df1 "Topsis Score" (map Num scores))
                   "Rank" (map (fun r => Int (Z.of_nat r)) ranks)) /\
        fs2 output2
        = Table (set_column (set_column df2 "Topsis Score" (map Num scores))
                   "Rank" (map (fun r => Int (Z.of_nat r)) ranks))
  | SystemExit out1 code1, SystemExit out2 code2 => out1 = out2 /\ code1 = code2
  | Uncaught e1, Uncaught e2 => e1 = e2
  | _, _ => False
  end.

(** The phones under other names, and the files that hold both tables. *)
Definition renamed_phones : @DataFrame Binary64 :=
  ("Name"%string, [NA; Text "?"; Int 3; Text "M4"; Text "M4"]) :: tl phones.

Definition shop : @filesystem Binary64 :=
  fun path =>
    if String.eqb path "phones.csv" then Table phones
    else if String.eqb path "renamed.csv" then Table renamed_phones
    else Missing.

(** ** The order of binary64 *)

(** Three integers for every binary64 value, compared one after the other:
    the values come in the order of their keys exactly as NumPy sorts them,
    the numbers by [<] with the two zeros together, NaN after everything. *)
Definition sf_key (x : spec_float) : Z * Z * Z :=
  match x with
  | S754_nan => (3, 0, 0)
  | S754_infinity s => (if s then -2 else 2, 0, 0)
  | S754_zero _ => (0, 0, 0)
  | S754_finite s m e =>
      if s then (-1, - e, - Z.pos m) else (1, e, Z.pos m)
  end%Z.

Definition key_lt (a b : Z * Z * Z) : Prop :=
  let '(a1, a2, a3) := a in
  let '(b1, b2, b3) := b in
  (a1 < b1 \/ (a1 = b1 /\ (a2 < b2 \/ (a2 = b2 /\ a3 < b3))))%Z.

(** The key of the opposite: NaN stays NaN. *)
Definition key_neg (a : Z * Z * Z) : Z * Z * Z :=
  let '(a1, a2, a3) := a in
  if (a1 =? 3)%Z then a else (- a1, - a2, - a3)%Z.

Definition binary64_key (x : float) : Z * Z * Z := sf_key (Prim2SF x).

(** ** More example inputs *)

(** The criteria of [phones] as an array, four equal weights, the price a
    cost and the rest benefits, and the scores binary64 gives them. *)
Definition phones_data : @ndarray2 Binary64 :=
  @Array2 Binary64 4
    [[250; 16; 12; 5]; [200; 16; 8; 3]; [300; 32; 16; 4]; [275; 32; 8; 4];
     [225; 16; 16; 2]]%float.

Definition quarter_weights : list (@num Binary64) :=
  [0.25; 0.25; 0.25; 0.25]%float.

Definition phones_impacts : list string := ["-"; "+"; "+"; "+"]%string.

Definition phones_scores : list (@num Binary64) :=
  [0x1.118cbc7936ac5p-1; 0x1.3bc4c2a762c22p-2; 0x1.621d9eac4e9efp-1;
   0x1.11c8fe5cb100fp-1; 0x1.9aabd5a068b13p-2]%float.



(** Two alternatives, each the greater on one criterion: on the reals and
    on binary64. *)
Definition crossed : @ndarray2 Real64 :=
  @Array2 Real64 2 [[1%R; 2%R]; [2%R; 1%R]].

Definition crossed64 : @ndarray2 Binary64 :=
  @Array2 Binary64 2 [[1; 2]; [2; 1]]%float.

(** Two weights of 2^664: finite, with a square that is not. *)
Definition huge_weights : list (@num Binary64) := [0x1p664; 0x1p664]%float.

(** [0 <= x <= 1] as the arithmetic decides it; false of NaN. *)
Definition in_unit_interval {F : Float64} (x : num) : bool :=
  (ltb zero x || eqb zero x) && (ltb x (of_int 1) || eqb x (of_int 1)).

(** The bound on the scores as a property of an arithmetic: whenever the
    sum of the two separations of a row is not zero, the score of the row
    is in the unit interval. *)
Definition scores_in_unit_interval (F : Float64) (RT : Runtime F) : Prop :=
  forall data weights impacts scores ranks,
    topsis_calculation data weights impacts = Ok (scores, ranks) ->
    let weighted := weighted_matrix data weights in
    let s_best := separation weighted (ideal_best impacts weighted) in
    let s_worst := separation weighted (ideal_worst impacts weighted) in
    forall i, i < length (rows data) ->
      eqb (add (nth i s_best zero) (nth i s_worst zero)) zero = false ->
      in_unit_interval (nth i scores zero) = true.

(** * Properties *)

(** ** Lists *)

Lemma traverse_Some_map {A B : Type} (f : A -> option B) (l : list A) ys :
  traverse f l = Some ys -> map f l = map Some ys.
Proof.
  revert ys; induction l as [|x r IH]; simpl; intros ys Hys.
  - injection Hys as <-; reflexivity.
  - destruct (f x) as [y|]; [|discriminate].
    destruct (traverse f r) as [zs|]; [|discriminate].
    injection Hys as <-; simpl; f_equal; auto.
Qed.

Lemma traverse_length {A B : Type} (f : A -> option B) (l : list A) ys :
  traverse f l = Some ys -> length ys = length l.
Proof.
  intros Hys; apply traverse_Some_map in Hys.
  apply (f_equal (@length _)) in Hys.
  rewrite !length_map in Hys; auto.
Qed.

Lemma traverse_nth {A B : Type} (f : A -> option B) (l : list A) ys k d e :
  traverse f l = Some ys -> k < length l ->
  f (nth k l d) = Some (nth k ys e).
Proof.
  intros Hys Hk.
  pose proof (traverse_length _ _ _ Hys) as Hlen.
  apply traverse_Some_map in Hys.
  apply (f_equal (fun m => nth k m None)) in Hys.
  rewrite (nth_indep _ None (f d)) in Hys by (rewrite length_map; lia).
  rewrite map_nth in Hys; rewrite Hys.
  rewrite (nth_indep _ None (Some e)) by (rewrite length_map; lia).
  apply map_nth.
Qed.

Lemma traverse_None {A B : Type} (f : A -> option B) (l : list A) :
  traverse f l = None <-> exists x, In x l /\ f x = None.
Proof.
  induction l as [|x r IH]; simpl.
  - split; [discriminate | intros (y & [] & _)].
  - destruct (f x) as [y|] eqn:Hx.
    + destruct (traverse f r) as [zs|].
      * split; [discriminate|].
        intros (z & [<- | Hz] & Hnone); [congruence|].
        assert (Some zs = None) by (apply IH; eauto); discriminate.
      * split; [|reflexivity].
        intros _; destruct IH as [IH _].
        destruct (IH eq_refl) as (z & Hz & Hnone); eauto.
    + split; [|reflexivity]; intros _; eauto.
Qed.

Lemma traverse_Some_intro {A B : Type} (f : A -> option B) (l : list A) :
  (forall x, In x l -> f x <> None) -> exists ys, traverse f l = Some ys.
Proof.
  intros Hall; destruct (traverse f l) as [ys|] eqn:Hys; [eauto|].
  apply traverse_None in Hys; destruct Hys as (x & Hx & Hnone).
  exfalso; eapply Hall; eauto.
Qed.

Lemma nth_map_lt {A B : Type} (f : A -> B) (l : list A) k d e :
  k < length l -> nth k (map f l) d = f (nth k l e).
Proof.
  intros Hk; rewrite (nth_indep _ d (f e)) by (rewrite length_map; exact Hk).
  apply map_nth.
Qed.

Lemma zip_with_length {A B C : Type} (f : A -> B -> C) u v :
  length (zip_with f u v) = Nat.min (length u) (length v).
Proof.
  revert v; induction u as [|x u IH]; intros [|y v]; simpl; auto.
Qed.

Lemma zip_with_nth {A B C : Type} (f : A -> B -> C) u v k a b c :
  k < length u -> k < length v ->
  nth k (zip_with f u v) c = f (nth k u a) (nth k v b).
Proof.
  revert v k; induction u as [|x u IH]; intros [|y v] [|k]; simpl;
    intros Hu Hv; try lia; auto.
  apply IH; lia.
Qed.

(** ** Strings and tokens *)

Lemma split_not_nil sep s : split sep s <> [].
Proof.
  destruct s as [|c r]; simpl; [discriminate|].
  destruct (Ascii.eqb c sep); [discriminate|].
  destruct (split sep r); discriminate.
Qed.

(** Splitting at a separator splits the list of pieces. *)
Lemma split_app sep s1 s2 :
  split sep (s1 ++ String sep s2)%string = split sep s1 ++ split sep s2.
Proof.
  induction s1 as [|c r IH]; simpl.
  - rewrite Ascii.eqb_refl; reflexivity.
  - destruct (Ascii.eqb c sep).
    + rewrite IH; reflexivity.
    + rewrite IH.
      pose proof (split_not_nil sep r) as Hnil.
      destruct (split sep r) as [|tok toks]; [congruence|reflexivity].
Qed.

Lemma tokens_app s1 s2 :
  tokens (s1 ++ String "," s2)%string = tokens s1 ++ tokens s2.
Proof.
  unfold tokens; rewrite split_app, map_app, filter_app; reflexivity.
Qed.

Lemma tokens_truthy s t : In t (tokens s) -> t <> EmptyString.
Proof.
  unfold tokens; rewrite filter_In; intros [_ Ht] ->; discriminate.
Qed.

Lemma is_impact_iff t : is_impact t = true <-> t = "+"%string \/ t = "-"%string.
Proof.
  unfold is_impact; rewrite orb_true_iff, !String.eqb_eq; tauto.
Qed.

Lemma forallb_is_impact l :
  forallb is_impact l = true <->
  Forall (fun t => t = "+"%string \/ t = "-"%string) l.
Proof.
  rewrite forallb_forall, Forall_forall.
  split; intros Hall t Ht; apply is_impact_iff; auto.
Qed.

(** ** Parameter validation *)

Section ParameterValidation.

Context {F : Float64} {RT : Runtime F}.

(** The three checks in the order of the source, as one equation. *)
Lemma parse_and_validate_cases weights_arg impacts_arg n :
  (traverse float_of_str (tokens weights_arg) = None /\
   parse_and_validate weights_arg impacts_arg n =
     error_and_exit "Weights must be numeric and separated by commas") \/
  (exists weights, traverse float_of_str (tokens weights_arg) = Some weights /\
   ((forallb is_impact (tokens impacts_arg) = false /\
     parse_and_validate weights_arg impacts_arg n =
       error_and_exit "Impacts must be '+' or '-' and separated by commas") \/
    (forallb is_impact (tokens impacts_arg) = true /\
     (Z.of_nat (length weights) <> n \/
      Z.of_nat (length (tokens impacts_arg)) <> n) /\
     parse_and_validate weights_arg impacts_arg n =
       error_and_exit ("Weights and impacts count must equal criteria count ("
                       ++ str_of_int n ++ ")")%string) \/
    (forallb is_impact (tokens impacts_arg) = true /\
     Z.of_nat (length weights) = n /\
     Z.of_nat (length (tokens impacts_arg)) = n /\
     parse_and_validate weights_arg impacts_arg n =
       Ok (weights, tokens impacts_arg)))).
Proof.
  unfold parse_and_validate.
  destruct (traverse float_of_str (tokens weights_arg)) as [weights|];
    [right; exists weights; split; [reflexivity|] | left; auto].
  destruct (forallb is_impact (tokens impacts_arg)); simpl; [right | left; auto].
  destruct (Z.eqb_spec (Z.of_nat (length weights)) n) as [Hw|Hw]; simpl.
  - destruct (Z.eqb_spec (Z.of_nat (length (tokens impacts_arg))) n) as [Hi|Hi];
      simpl; [right | left]; auto.
  - left; auto.
Qed.

(** C5. Parameter validation fails when a weight token is not a number for
    [float], fails when an impact token is neither [+] nor [-], fails when the
    number of weights or of impacts is not the criteria count, and in every
    other case returns the parsed weights and the impact tokens. *)
Theorem parse_and_validate_checks (weights_arg impacts_arg : string) (n : Z) :
  ((exists t, In t (tokens weights_arg) /\ float_of_str t = None) ->
   fails (parse_and_validate weights_arg impacts_arg n)) /\
  ((exists t, In t (tokens impacts_arg) /\ t <> "+"%string /\ t <> "-"%string) ->
   fails (parse_and_validate weights_arg impacts_arg n)) /\
  (forall weights,
     traverse float_of_str (tokens weights_arg) = Some weights ->
     Z.of_nat (length weights) <> n ->
     fails (parse_and_validate weights_arg impacts_arg n)) /\
  (Z.of_nat (length (tokens impacts_arg)) <> n ->
   fails (parse_and_validate weights_arg impacts_arg n)) /\
  (forall weights,
     traverse float_of_str (tokens weights_arg) = Some weights ->
     Forall (fun t => t = "+"%string \/ t = "-"%string) (tokens impacts_arg) ->
     Z.of_nat (length weights) = n ->
     Z.of_nat (length (tokens impacts_arg)) = n ->
     parse_and_validate weights_arg impacts_arg n
     = Ok (weights, tokens impacts_arg)).
Proof.
  pose proof (parse_and_validate_cases weights_arg impacts_arg n) as Hcases.
  repeat split.
  - intros Hbad; apply traverse_None in Hbad.
    destruct Hcases as [[_ ->] | (ws & Hws & _)]; [eexists; reflexivity|].
    congruence.
  - intros (t & Ht & Hplus & Hminus).
    destruct Hcases as [[_ ->] | (ws & _ & [[_ ->] | [(Hall & _) | (Hall & _)]])];
      try (eexists; reflexivity).
    + rewrite forallb_forall in Hall; apply Hall, is_impact_iff in Ht; tauto.
    + rewrite forallb_forall in Hall; apply Hall, is_impact_iff in Ht; tauto.
  - intros weights Hws Hlen.
    destruct Hcases as [[_ ->] | (ws & Hws' & [[_ ->] | [(_ & _ & ->) | Hok]])];
      try (eexists; reflexivity).
    destruct Hok as (_ & Hw & _); congruence.
  - intros Hlen.
    destruct Hcases as [[_ ->] | (ws & Hws' & [[_ ->] | [(_ & _ & ->) | Hok]])];
      try (eexists; reflexivity).
    destruct Hok as (_ & _ & Hi & _); congruence.
  - intros weights Hws Hall Hw Hi.
    apply forallb_is_impact in Hall.
    destruct Hcases as [[Hnone _] | (ws & Hws' & [[Hf _] | [(_ & Hne & _) | Hok]])];
      try congruence.
    + destruct Hne; congruence.
    + destruct Hok as (_ & _ & _ & ->); congruence.
Qed.

(** C9. An empty impact token is dropped before the checks: a comma in front,
    a comma at the end and a doubled comma leave the tokens as they are, so
    [+,,-] is validated as [+,-] is, and passes against two criteria. *)
Theorem empty_impact_tokens_are_dropped :
  (forall s, tokens (String "," s) = tokens s) /\
  (forall s, tokens (s ++ ",")%string = tokens s) /\
  (forall s1 s2, tokens (s1 ++ ",," ++ s2)%string
                 = tokens (s1 ++ "," ++ s2)%string) /\
  (forall weights_arg n,
     parse_and_validate weights_arg "+,,-" n
     = parse_and_validate weights_arg "+,-" n) /\
  (forall weights_arg weights,
     traverse float_of_str (tokens weights_arg) = Some weights ->
     length weights = 2 ->
     parse_and_validate weights_arg "+,,-" 2
     = Ok (weights, ["+"%string; "-"%string])).
Proof.
  assert (Hfront : forall s, tokens (String "," s) = tokens s).
  { intros s; apply (tokens_app EmptyString s). }
  split; [|split; [|split; [|split]]].
  - exact Hfront.
  - intros s; rewrite tokens_app; apply app_nil_r.
  - intros s1 s2; simpl.
    rewrite !tokens_app, Hfront; reflexivity.
  - intros weights_arg n; reflexivity.
  - intros weights_arg weights Hws Hlen.
    unfold parse_and_validate; rewrite Hws, Hlen; reflexivity.
Qed.

End ParameterValidation.

(** ** Dataset validation *)

Section DatasetValidation.

Context {F : Float64} {RT : Runtime F}.

Lemma all_numeric_iff (df : DataFrame) :
  forallb (fun col => forallb notna (map to_numeric (snd col))) df = true <->
  (forall col c, In col df -> In c (snd col) -> to_numeric c <> None).
Proof.
  rewrite forallb_forall; split.
  - intros Hall col c Hcol Hc Hnone.
    specialize (Hall col Hcol); rewrite forallb_forall in Hall.
    specialize (Hall (to_numeric c) (in_map _ _ _ Hc)).
    rewrite Hnone in Hall; discriminate.
  - intros Hall col Hcol; rewrite forallb_forall; intros x Hx.
    apply in_map_iff in Hx; destruct Hx as (c & <- & Hc).
    specialize (Hall col c Hcol Hc).
    destruct (to_numeric c); [reflexivity | congruence].
Qed.

Lemma read_and_validate_csv_cases (fs : filesystem) path df :
  fs path = Table df ->
  read_and_validate_csv fs path =
    if shape1 df <? 3 then
      error_and_exit "Input file must have at least 3 columns"
    else if forallb (fun col => forallb notna (map to_numeric (snd col)))
              (iloc_from1 df)
    then Ok df
    else error_and_exit "Columns 2 onwards must contain only numeric values".
Proof.
  intros Hfs; unfold read_and_validate_csv; rewrite Hfs.
  destruct (shape1 df <? 3); [reflexivity|].
  destruct (forallb _ (iloc_from1 df)); reflexivity.
Qed.

(** The array of a frame whose cells are all numeric: one row per row of the
    frame, one entry per column, each the number of its cell. *)
Lemma to_numpy_numeric (df : DataFrame) (n : nat) :
  Forall (fun col => length (snd col) = n) df ->
  (forall col c, In col df -> In c (snd col) -> to_numeric c <> None) ->
  exists data,
    to_numpy df n = Some data /\
    ncols data = length df /\
    length (rows data) = n /\
    well_shaped data /\
    forall i j, i < n -> j < length df ->
      to_numeric (nth i (snd (nth j df (EmptyString, []))) NA)
      = Some (entry data i j).
Proof.
  intros Hrect Hnum; rewrite Forall_forall in Hrect.
  set (conv := fun i => traverse (fun col => to_numeric (nth i (snd col) NA)) df).
  assert (Hrow : forall i, In i (seq 0 n) -> conv i <> None).
  { intros i Hi Hnone; apply in_seq in Hi.
    apply traverse_None in Hnone; destruct Hnone as (col & Hcol & Hnone).
    apply (Hnum col (nth i (snd col) NA)); auto.
    apply nth_In; rewrite (Hrect col Hcol); lia. }
  destruct (traverse_Some_intro conv (seq 0 n) Hrow) as (rs & Hrs).
  exists (Array2 (length df) rs); unfold to_numpy; fold conv; rewrite Hrs.
  pose proof (traverse_length _ _ _ Hrs) as Hlen; rewrite length_seq in Hlen.
  assert (Hnth : forall i, i < n -> conv i = Some (nth i rs [])).
  { intros i Hi.
    assert (Hs : nth i (seq 0 n) 0 = i) by (rewrite seq_nth; lia).
    rewrite <- Hs at 1.
    apply traverse_nth; [exact Hrs | rewrite length_seq; lia]. }
  repeat split; auto.
  - unfold well_shaped; simpl; apply Forall_forall; intros row Hin.
    destruct (In_nth _ _ [] Hin) as (i & Hi & <-).
    apply (traverse_length _ _ _ (Hnth i ltac:(lia))).
  - intros i j Hi Hj; unfold entry; simpl.
    apply (traverse_nth (fun col => to_numeric (nth i (snd col) NA)) df);
      [apply Hnth; lia | lia].
Qed.

(** C6. Dataset validation fails on a table of fewer than three columns,
    fails when a cell of a column other than the first has no numeric value
    (every cell of every such column is checked), and otherwise returns the
    table; the criteria matrix is then the table without its first column,
    the rows in the order of the table. *)
Theorem read_and_validate_csv_checks (fs : filesystem) (path : string)
  (df : DataFrame) :
  fs path = Table df ->
  (shape1 df < 3 -> fails (read_and_validate_csv fs path)) /\
  ((exists col c, In col (iloc_from1 df) /\ In c (snd col) /\
                  to_numeric c = None) ->
   fails (read_and_validate_csv fs path)) /\
  (3 <= shape1 df ->
   (forall col c, In col (iloc_from1 df) -> In c (snd col) ->
                  to_numeric c <> None) ->
   read_and_validate_csv fs path = Ok df) /\
  (read_and_validate_csv fs path = Ok df -> rectangular df ->
   exists data,
     to_numpy (iloc_from1 df) (shape0 df) = Some data /\
     ncols data = shape1 df - 1 /\
     length (rows data) = shape0 df /\
     well_shaped data /\
     forall i j, i < shape0 df -> j < ncols data ->
       to_numeric (nth i (snd (nth (S j) df (EmptyString, []))) NA)
       = Some (entry data i j)).
Proof.
  intros Hfs; rewrite (read_and_validate_csv_cases fs path df Hfs).
  split; [|split; [|split]].
  - intros Hlt; apply Nat.ltb_lt in Hlt; rewrite Hlt; eexists; reflexivity.
  - intros (col & c & Hcol & Hc & Hnone).
    destruct (shape1 df <? 3); [eexists; reflexivity|].
    destruct (forallb _ (iloc_from1 df)) eqn:Hall; [|eexists; reflexivity].
    exfalso; rewrite all_numeric_iff in Hall; eapply Hall; eauto.
  - intros Hge Hnum.
    apply Nat.ltb_ge in Hge; rewrite Hge.
    apply all_numeric_iff in Hnum; rewrite Hnum; reflexivity.
  - intros Hok Hrect.
    destruct (shape1 df <? 3); [discriminate|].
    destruct (forallb _ (iloc_from1 df)) eqn:Hall; [|discriminate].
    rewrite all_numeric_iff in Hall.
    assert (Hrect' : Forall (fun col => length (snd col) = shape0 df)
                       (iloc_from1 df)).
    { unfold rectangular in Hrect; rewrite Forall_forall in Hrect |- *.
      intros col Hcol; apply Hrect.
      destruct df; [destruct Hcol | right; exact Hcol]. }
    destruct (to_numpy_numeric _ _ Hrect' Hall)
      as (data & Hdata & Hcols & Hrows & Hshape & Hentry).
    exists data; repeat split; auto.
    + rewrite Hcols; unfold iloc_from1, shape1; destruct df; simpl; lia.
    + intros i j Hi Hj; rewrite <- (Hentry i j Hi) by lia.
      destruct df; [destruct j|]; reflexivity.
Qed.

End DatasetValidation.

(** ** The engine, for any float64 arithmetic *)

Section Engine.

Context {F : Float64} {RT : Runtime F}.

Lemma norm_axis0_length (a : ndarray2) : length (norm_axis0 a) = ncols a.
Proof. unfold norm_axis0; rewrite length_map, length_seq; reflexivity. Qed.

Lemma norm_axis0_nth (a : ndarray2) j :
  j < ncols a -> nth j (norm_axis0 a) zero = norm (column a j).
Proof.
  intros Hj; unfold norm_axis0.
  rewrite (nth_map_lt _ _ _ _ 0) by (rewrite length_seq; lia).
  rewrite seq_nth by lia; reflexivity.
Qed.

Lemma exists_zero_norm (a : ndarray2) :
  existsb (fun n => eqb n zero) (norm_axis0 a) = true <->
  exists j, j < ncols a /\ eqb (norm (column a j)) zero = true.
Proof.
  rewrite existsb_exists; split.
  - intros (x & Hx & Hzero).
    destruct (In_nth _ _ zero Hx) as (j & Hj & <-).
    rewrite norm_axis0_length in Hj.
    exists j; rewrite <- norm_axis0_nth; auto.
  - intros (j & Hj & Hzero).
    exists (nth j (norm_axis0 a) zero); split.
    + apply nth_In; rewrite norm_axis0_length; lia.
    + rewrite norm_axis0_nth; auto.
Qed.

Lemma broadcast_rows op (a : ndarray2) v :
  length (rows (broadcast op a v)) = length (rows a).
Proof. apply length_map. Qed.

Lemma broadcast_well_shaped op (a : ndarray2) v :
  well_shaped a -> length v = ncols a -> well_shaped (broadcast op a v).
Proof.
  unfold well_shaped; simpl; intros Ha Hv.
  rewrite Forall_forall in Ha |- *; intros row Hrow.
  apply in_map_iff in Hrow; destruct Hrow as (r & <- & Hr).
  rewrite zip_with_length, (Ha r Hr), Hv; apply Nat.min_id.
Qed.

Lemma row_length (a : ndarray2) i :
  well_shaped a -> i < length (rows a) -> length (nth i (rows a) []) = ncols a.
Proof.
  unfold well_shaped; rewrite Forall_forall; intros Ha Hi.
  apply Ha, nth_In, Hi.
Qed.

Lemma broadcast_row op (a : ndarray2) v i :
  i < length (rows a) ->
  nth i (rows (broadcast op a v)) [] = zip_with op (nth i (rows a) []) v.
Proof.
  intros Hi; simpl.
  apply (nth_map_lt (fun row => zip_with op row v) (rows a) i [] [] Hi).
Qed.

(** Broadcasting a vector against an array acts entry by entry. *)
Lemma broadcast_entry op (a : ndarray2) v i j :
  well_shaped a -> length v = ncols a ->
  i < length (rows a) -> j < ncols a ->
  entry (broadcast op a v) i j = op (entry a i j) (nth j v zero).
Proof.
  intros Ha Hv Hi Hj; unfold entry.
  rewrite broadcast_row by exact Hi.
  apply zip_with_nth; [rewrite row_length; auto | lia].
Qed.

Lemma weighted_matrix_rows (data : ndarray2) weights :
  length (rows (weighted_matrix data weights)) = length (rows data).
Proof. unfold weighted_matrix; rewrite !broadcast_rows; reflexivity. Qed.

Lemma weighted_matrix_well_shaped (data : ndarray2) weights :
  well_shaped data -> length weights = ncols data ->
  well_shaped (weighted_matrix data weights).
Proof.
  intros Hd Hw; unfold weighted_matrix.
  apply broadcast_well_shaped; [|exact Hw].
  apply broadcast_well_shaped; [exact Hd | apply norm_axis0_length].
Qed.

(** [weighted[i][j] = (data[i][j] / norm_j) * weights[j]] *)
Lemma weighted_matrix_entry (data : ndarray2) weights i j :
  well_shaped data -> length weights = ncols data ->
  i < length (rows data) -> j < ncols data ->
  entry (weighted_matrix data weights) i j
  = mul (div (entry data i j) (norm (column data j))) (nth j weights zero).
Proof.
  intros Hd Hw Hi Hj; unfold weighted_matrix.
  rewrite broadcast_entry; auto.
  - rewrite broadcast_entry, norm_axis0_nth; auto using norm_axis0_length.
  - apply broadcast_well_shaped; [exact Hd | apply norm_axis0_length].
  - rewrite broadcast_rows; exact Hi.
Qed.

Lemma separation_length (weighted : ndarray2) ideal :
  length (separation weighted ideal) = length (rows weighted).
Proof. unfold separation, norm_axis1; rewrite length_map; apply broadcast_rows. Qed.

Lemma separation_nth (weighted : ndarray2) ideal i :
  i < length (rows weighted) ->
  nth i (separation weighted ideal) zero
  = norm (zip_with sub (nth i (rows weighted) []) ideal).
Proof.
  intros Hi; unfold separation, norm_axis1.
  rewrite (nth_map_lt _ _ _ _ []) by (rewrite broadcast_rows; lia).
  rewrite broadcast_row by exact Hi; reflexivity.
Qed.

(** The engine stops exactly on a column of norm zero. *)
Lemma topsis_calculation_cases (data : ndarray2) weights impacts :
  topsis_calculation data weights impacts =
    if existsb (fun n => eqb n zero) (norm_axis0 data) then
      error_and_exit "Column with all zeros detected"
    else
      let weighted := weighted_matrix data weights in
      let scores :=
        topsis_scores (separation weighted (ideal_best impacts weighted))
          (separation weighted (ideal_worst impacts weighted)) in
      Ok (scores, topsis_ranks scores).
Proof. reflexivity. Qed.

(** C3. The computation fails exactly when some criterion column has norm
    zero; it fails at the check of the norms, before anything is divided by
    them, so that whenever it returns every norm it divided by is non-zero;
    and the failing run prints its error line, exits with 1 and leaves the
    files as they were. *)
Theorem topsis_calculation_degenerate_column (data : ndarray2)
  (weights : list num) (impacts : list string) :
  ((exists j, j < ncols data /\ eqb (norm (column data j)) zero = true) <->
   fails (topsis_calculation data weights impacts)) /\
  (fails (topsis_calculation data weights impacts) ->
   topsis_calculation data weights impacts
   = SystemExit ["Error: Column with all zeros detected"%string] 1%Z) /\
  (fails (topsis_calculation data weights impacts) \/
   (Forall (fun n => eqb n zero = false) (norm_axis0 data) /\
    exists scores ranks,
      topsis_calculation data weights impacts = Ok (scores, ranks))) /\
  (forall fs input_path weights_arg impacts_arg output_path df,
     read_and_validate_csv fs input_path = Ok df ->
     parse_and_validate weights_arg impacts_arg (Z.of_nat (shape1 df) - 1)
     = Ok (weights, impacts) ->
     to_numpy (iloc_from1 df) (shape0 df) = Some data ->
     fails (topsis_calculation data weights impacts) ->
     main [input_path; weights_arg; impacts_arg; output_path] fs
     = Process fs ["Error: Column with all zeros detected"%string] 1%Z).
Proof.
  rewrite topsis_calculation_cases.
  destruct (existsb _ (norm_axis0 data)) eqn:Hzero.
  - apply exists_zero_norm in Hzero.
    split; [|split; [|split]].
    + split; [intros _; eexists; reflexivity | auto].
    + reflexivity.
    + left; eexists; reflexivity.
    + intros fs input_path weights_arg impacts_arg output_path df Hdf Hpv Hnp _.
      unfold main, run_topsis; rewrite Hdf; simpl.
      rewrite Hpv; simpl; rewrite Hnp, topsis_calculation_cases.
      apply exists_zero_norm in Hzero; rewrite Hzero; reflexivity.
  - assert (Hnot : ~ exists j, j < ncols data /\
                               eqb (norm (column data j)) zero = true).
    { rewrite <- exists_zero_norm, Hzero; discriminate. }
    split; [|split; [|split]].
    + split; [tauto | intros (m & Hm); discriminate].
    + intros (m & Hm); discriminate.
    + right; split; [|eauto].
      apply Forall_forall; intros x Hx.
      destruct (eqb x zero) eqn:Hx0; [|reflexivity].
      assert (existsb (fun n => eqb n zero) (norm_axis0 data) = true)
        by (apply existsb_exists; eauto).
      congruence.
    + intros fs input_path weights_arg impacts_arg output_path df _ _ _ (m & Hm).
      discriminate.
Qed.

End Engine.

(** ** Sorting and ranks *)

Lemma StronglySorted_nth {A : Type} (R : A -> A -> Prop) (l : list A) d a b :
  StronglySorted R l -> a < b -> b < length l -> R (nth a l d) (nth b l d).
Proof.
  intros Hs; revert a b; induction Hs as [|x l Hs IH Hx]; intros a b Hab Hb.
  - simpl in Hb; lia.
  - destruct b as [|b]; [lia|]; simpl in Hb.
    destruct a as [|a]; simpl.
    + rewrite Forall_forall in Hx; apply Hx, nth_In; lia.
    + apply IH; lia.
Qed.

Lemma map_nth_seq {A : Type} (l : list A) d :
  map (fun i => nth i l d) (seq 0 (length l)) = l.
Proof.
  induction l as [|x l IH]; [reflexivity|].
  simpl; f_equal.
  rewrite <- seq_shift, map_map; exact IH.
Qed.

(** A sorted arrangement of [s, s+1, ..., s+n-1] is that list itself. *)
Lemma sorted_permutation_of_seq (l : list nat) s n :
  StronglySorted (fun a b => Nat.ltb b a = false) l ->
  Permutation l (seq s n) -> l = seq s n.
Proof.
  revert l s; induction n as [|n IH]; intros l s Hs Hp.
  - apply Permutation_sym, Permutation_nil in Hp; exact Hp.
  - destruct l as [|x l].
    + apply Permutation_nil in Hp; discriminate.
    + inversion Hs as [|? ? Hs' Hx]; subst.
      assert (Hxs : x = s).
      { assert (Hin : In x (seq s (S n)))
          by (apply (Permutation_in _ Hp); left; reflexivity).
        apply in_seq in Hin.
        assert (Hs_in : In s (x :: l)).
        { apply (Permutation_in _ (Permutation_sym Hp)); left; reflexivity. }
        destruct Hs_in as [Heq | Hs_in]; [auto|].
        rewrite Forall_forall in Hx; apply Hx, Nat.ltb_ge in Hs_in; lia. }
      subst x; simpl in Hp |- *; f_equal.
      apply IH; [exact Hs' | eapply Permutation_cons_inv; exact Hp].
Qed.

Section Ranks.

Context {F : Float64} {RT : Runtime F}.
Hypothesis numpy_sorts : numpy_argsort F RT.

(** The second [argsort] inverts the first: the row at position [p] of the
    sorted order is the row whose entry of the second result is [p]. *)
Lemma argsort_argsort_inverse (keys : list num) i :
  i < length keys ->
  nth (nth i (argsort_int (argsort_float keys)) 0) (argsort_float keys) 0 = i.
Proof.
  intros Hi; destruct numpy_sorts as [Hf Hn].
  set (order := argsort_float keys).
  pose proof (sorts_perm _ _ _ Hf keys) as Hperm; fold order in Hperm.
  pose proof (Permutation_length Hperm) as Hlen; rewrite length_seq in Hlen.
  pose proof (sorts_perm _ _ _ Hn order) as Hperm2; rewrite Hlen in Hperm2.
  pose proof (Permutation_length Hperm2) as Hlen2; rewrite length_seq in Hlen2.
  assert (Hgather : map (fun p => nth p order 0) (argsort_int order)
                    = seq 0 (length keys)).
  { apply sorted_permutation_of_seq; [apply (sorts_sorted _ _ _ Hn)|].
    apply Permutation_trans
      with (map (fun p => nth p order 0) (seq 0 (length keys)));
      [apply Permutation_map; exact Hperm2|].
    rewrite <- Hlen, map_nth_seq; rewrite Hlen; exact Hperm. }
  apply (f_equal (fun l => nth i l 0)) in Hgather.
  rewrite seq_nth in Hgather by exact Hi.
  rewrite (nth_map_lt _ _ _ _ 0) in Hgather by lia.
  exact Hgather.
Qed.

Lemma topsis_ranks_permutation (scores : list num) :
  Permutation (topsis_ranks scores) (seq 1 (length scores)).
Proof.
  destruct numpy_sorts as [Hf Hn]; unfold topsis_ranks.
  rewrite <- seq_shift.
  rewrite (map_ext (fun k => k + 1) S) by (intros; lia).
  apply Permutation_map.
  rewrite (sorts_perm _ _ _ Hn).
  rewrite (Permutation_length (sorts_perm _ _ _ Hf _)).
  rewrite length_seq, length_map; reflexivity.
Qed.

Lemma topsis_ranks_nth (scores : list num) i :
  i < length scores ->
  nth i (topsis_ranks scores) 0
  = nth i (argsort_int (argsort_float (map neg scores))) 0 + 1.
Proof.
  intros Hi; destruct numpy_sorts as [Hf Hn]; unfold topsis_ranks.
  apply (nth_map_lt (fun k => k + 1)).
  rewrite (Permutation_length (sorts_perm _ _ _ Hn _)), length_seq.
  rewrite (Permutation_length (sorts_perm _ _ _ Hf _)), length_seq, length_map.
  exact Hi.
Qed.

(** A row ranked before another one does not have the smaller score. *)
Lemma topsis_ranks_descending (scores : list num) i j :
  i < length scores -> j < length scores ->
  nth i (topsis_ranks scores) 0 < nth j (topsis_ranks scores) 0 ->
  npy_lt (neg (nth j scores zero)) (neg (nth i scores zero)) = false.
Proof.
  intros Hi Hj Hlt; rewrite !topsis_ranks_nth in Hlt by assumption.
  set (keys := map neg scores) in *.
  assert (Hkeys : length keys = length scores) by apply length_map.
  destruct numpy_sorts as [Hf Hn].
  set (order := argsort_float keys) in *.
  set (out := argsort_int order) in *.
  pose proof (sorts_perm _ _ _ Hf keys) as Hperm; fold order in Hperm.
  pose proof (Permutation_length Hperm) as Hlen; rewrite length_seq in Hlen.
  pose proof (sorts_perm _ _ _ Hn order) as Hperm2; fold out in Hperm2.
  pose proof (Permutation_length Hperm2) as Hlen2; rewrite length_seq in Hlen2.
  assert (Hb : nth j out 0 < length order).
  { assert (Hin : In (nth j out 0) (seq 0 (length order))).
    { apply (Permutation_in _ Hperm2), nth_In; lia. }
    apply in_seq in Hin; lia. }
  pose proof (StronglySorted_nth _ _ zero (nth i out 0) (nth j out 0)
                (sorts_sorted _ _ _ Hf keys)) as Hsorted.
  fold order in Hsorted; rewrite length_map in Hsorted.
  specialize (Hsorted ltac:(lia) Hb).
  rewrite !(nth_map_lt (fun p => nth p keys zero) order _ zero 0) in Hsorted
    by lia.
  unfold out, order in Hsorted.
  rewrite !argsort_argsort_inverse in Hsorted by lia.
  unfold keys in Hsorted.
  rewrite !(nth_map_lt neg scores _ zero zero) in Hsorted by lia.
  exact Hsorted.
Qed.

Lemma topsis_scores_length (data : ndarray2) weights impacts scores ranks :
  topsis_calculation data weights impacts = Ok (scores, ranks) ->
  length scores = length (rows data) /\ ranks = topsis_ranks scores.
Proof.
  rewrite topsis_calculation_cases.
  destruct (existsb _ (norm_axis0 data)); [discriminate|].
  simpl; intros Hok; injection Hok as <- <-; split; [|reflexivity].
  unfold topsis_scores.
  rewrite zip_with_length, !separation_length, weighted_matrix_rows.
  apply Nat.min_id.
Qed.

End Ranks.

(** ** The insertion sorts meet the contract of [argsort] *)

Section InsertionSort.

Variable A : Type.
Variable lt : A -> A -> bool.
Variable d : A.
Variable stop : A -> A -> bool.

Hypothesis le_trans : forall a b c,
  lt b a = false -> lt c b = false -> lt c a = false.
Hypothesis stop_true : forall x y, stop x y = true -> lt y x = false.
Hypothesis stop_false : forall x y, stop x y = false -> lt x y = false.

Let le (a b : A) : Prop := lt b a = false.

Lemma insert_by_perm (x : nat * A) l :
  Permutation (insert_by stop x l) (x :: l).
Proof.
  induction l as [|y r IH]; simpl; [reflexivity|].
  destruct (stop (snd x) (snd y)); [reflexivity|].
  rewrite IH; apply perm_swap.
Qed.

Lemma insert_by_sorted (x : nat * A) l :
  StronglySorted le (map snd l) ->
  StronglySorted le (map snd (insert_by stop x l)).
Proof.
  induction l as [|y r IH]; simpl; intros Hs.
  - constructor; constructor.
  - inversion Hs as [|? ? Hr Hy]; subst.
    destruct (stop (snd x) (snd y)) eqn:Hstop; simpl.
    + constructor; [exact Hs|].
      constructor; [apply stop_true, Hstop|].
      rewrite Forall_forall in Hy |- *; intros z Hz.
      unfold le; apply (le_trans _ (snd y)); [apply stop_true, Hstop|].
      apply Hy, Hz.
    + constructor; [apply IH, Hr|].
      apply Forall_forall; intros z Hz.
      apply (Permutation_in _ (Permutation_map snd (insert_by_perm x r))) in Hz.
      destruct Hz as [<- | Hz]; [apply stop_false, Hstop|].
      rewrite Forall_forall in Hy; apply Hy, Hz.
Qed.

Lemma in_combine_seq (l : list A) s i k :
  In (i, k) (combine (seq s (length l)) l) -> s <= i /\ nth (i - s) l d = k.
Proof.
  revert s; induction l as [|x l IH]; simpl; intros s Hin; [destruct Hin|].
  destruct Hin as [Heq | Hin].
  - injection Heq as <- <-; rewrite Nat.sub_diag; auto.
  - apply IH in Hin; destruct Hin as [Hle Hnth]; split; [lia|].
    replace (i - s) with (S (i - S s)) by lia; exact Hnth.
Qed.

Lemma map_fst_combine_seq (l : list A) s :
  map fst (combine (seq s (length l)) l) = seq s (length l).
Proof.
  revert s; induction l as [|x l IH]; simpl; intros s; [reflexivity|].
  f_equal; apply IH.
Qed.

Lemma sort_pairs_perm (l : list (nat * A)) :
  Permutation (fold_right (insert_by stop) [] l) l.
Proof.
  induction l as [|x l IH]; simpl; [reflexivity|].
  rewrite insert_by_perm, IH; reflexivity.
Qed.

Lemma sort_pairs_sorted (l : list (nat * A)) :
  StronglySorted le (map snd (fold_right (insert_by stop) [] l)).
Proof.
  induction l as [|x l IH]; simpl; [constructor|].
  apply insert_by_sorted, IH.
Qed.

Lemma argsort_by_sorts : sorts lt d (argsort_by stop).
Proof.
  split; intros keys; unfold argsort_by.
  - rewrite (Permutation_map fst (sort_pairs_perm _)).
    rewrite map_fst_combine_seq; reflexivity.
  - rewrite map_map.
    rewrite (map_ext_in _ snd); [apply sort_pairs_sorted|].
    intros [i k] Hin; simpl.
    apply (Permutation_in _ (sort_pairs_perm _)), (in_combine_seq keys) in Hin.
    destruct Hin as [_ Hnth]; rewrite Nat.sub_0_r in Hnth; exact Hnth.
Qed.

End InsertionSort.

Lemma stable_argsort_sorts {A : Type} (lt : A -> A -> bool) (d : A) :
  (forall a b, lt a b = true -> lt b a = false) ->
  (forall a b c, lt b a = false -> lt c b = false -> lt c a = false) ->
  sorts lt d (stable_argsort lt).
Proof.
  intros Hasym Htrans; apply argsort_by_sorts; [exact Htrans| |].
  - intros x y Hstop; apply negb_true_iff in Hstop; exact Hstop.
  - intros x y Hstop; apply negb_false_iff in Hstop; auto.
Qed.

Lemma reversing_argsort_sorts {A : Type} (lt : A -> A -> bool) (d : A) :
  (forall a b, lt a b = true -> lt b a = false) ->
  (forall a b c, lt b a = false -> lt c b = false -> lt c a = false) ->
  sorts lt d (reversing_argsort lt).
Proof.
  intros Hasym Htrans; apply argsort_by_sorts; [exact Htrans| |]; auto.
Qed.

Lemma nat_argsort_sorts : sorts Nat.ltb 0 (stable_argsort Nat.ltb).
Proof.
  apply stable_argsort_sorts.
  - intros a b Hab; apply Nat.ltb_lt in Hab; apply Nat.ltb_ge; lia.
  - intros a b c Hab Hbc; apply Nat.ltb_ge in Hab, Hbc; apply Nat.ltb_ge; lia.
Qed.

(** ** The real numbers as float64 *)

Lemma Reqb_true x y : Reqb x y = true <-> x = y.
Proof. unfold Reqb; destruct (Req_dec_T x y); split; congruence. Qed.

Lemma Reqb_false x y : Reqb x y = false <-> x <> y.
Proof. unfold Reqb; destruct (Req_dec_T x y); split; congruence. Qed.

Lemma Rltb_true x y : Rltb x y = true <-> (x < y)%R.
Proof. unfold Rltb; destruct (Rlt_dec x y); split; auto; discriminate. Qed.

Lemma Rltb_false x y : Rltb x y = false <-> (y <= x)%R.
Proof.
  unfold Rltb; destruct (Rlt_dec x y); split; auto; try discriminate; lra.
Qed.

Lemma real_npy_lt (a b : R) : @npy_lt Real64 a b = Rltb a b.
Proof.
  unfold npy_lt; simpl.
  replace (Reqb b b) with true by (symmetry; apply Reqb_true; reflexivity).
  simpl; apply orb_false_r.
Qed.

Lemma real_isnan (a : R) : @isnan Real64 a = false.
Proof.
  unfold isnan; simpl.
  replace (Reqb a a) with true by (symmetry; apply Reqb_true; reflexivity).
  reflexivity.
Qed.

Lemma real_npy_lt_asym (a b : R) :
  @npy_lt Real64 a b = true -> @npy_lt Real64 b a = false.
Proof. rewrite !real_npy_lt, Rltb_true, Rltb_false; lra. Qed.

Lemma real_npy_le_trans (a b c : R) :
  @npy_lt Real64 b a = false -> @npy_lt Real64 c b = false ->
  @npy_lt Real64 c a = false.
Proof. rewrite !real_npy_lt, !Rltb_false; lra. Qed.

(** On the reals both runtimes sort as NumPy documents. *)
Lemma stable_runtime_sorts : numpy_argsort Real64 (StableRuntime Real64).
Proof.
  split; simpl.
  - apply stable_argsort_sorts;
      [exact real_npy_lt_asym | exact real_npy_le_trans].
  - exact nat_argsort_sorts.
Qed.

Lemma reversing_runtime_sorts : numpy_argsort Real64 (ReversingRuntime Real64).
Proof.
  split; simpl.
  - apply reversing_argsort_sorts;
      [exact real_npy_lt_asym | exact real_npy_le_trans].
  - exact nat_argsort_sorts.
Qed.

(** ** Binary64 in the order of NumPy *)

Lemma SFeqb_refl x :
  SFeqb x x = match x with S754_nan => false | _ => true end.
Proof.
  destruct x as [s|s| |s m e]; try destruct s; unfold SFeqb; simpl;
    try reflexivity;
    rewrite Z.compare_refl;
    change (Pos.compare_cont Eq m m) with (Pos.compare m m);
    rewrite Pos.compare_refl; reflexivity.
Qed.

Ltac key_case :=
  first [ split; [discriminate | simpl; lia]
        | split; [intros _; simpl; lia | reflexivity] ].

(** [<] on binary64 is the order of the keys, away from NaN. *)
Lemma SFltb_key x y :
  SFltb x y = true
  <-> key_lt (sf_key x) (sf_key y) /\ (fst (fst (sf_key y)) <> 3)%Z.
Proof.
  destruct x as [s|s| |s m e], y as [s'|s'| |s' m' e'];
    try destruct s; try destruct s'; unfold SFltb, key_lt, sf_key;
    cbn [SFcompare fst]; try key_case.
  all: change (Pos.compare_cont Eq m m') with (Pos.compare m m').
  all: destruct (Z.compare_spec e e'); cbn [CompOpp]; try key_case.
  all: destruct (Pos.compare_spec m m'); cbn [CompOpp]; key_case.
Qed.

Lemma sf_key_nan x : (fst (fst (sf_key x)) = 3)%Z <-> x = S754_nan.
Proof.
  destruct x as [s|s| |s m e]; try destruct s; simpl; split;
    first [reflexivity | discriminate | lia].
Qed.

Lemma sf_key_range x :
  let '(a, b, c) := sf_key x in
  (-2 <= a <= 3 /\ (a = 3 -> b = 0 /\ c = 0))%Z.
Proof. destruct x as [s|s| |s m e]; try destruct s; simpl; lia. Qed.

Lemma sf_key_opp x : sf_key (SFopp x) = key_neg (sf_key x).
Proof.
  destruct x as [s|s| |s m e]; try destruct s; simpl; try reflexivity.
  f_equal; f_equal; lia.
Qed.

Lemma binary64_isnan (a : float) :
  @isnan Binary64 a = true <-> (fst (fst (binary64_key a)) = 3)%Z.
Proof.
  unfold isnan, binary64_key; simpl.
  rewrite FloatAxioms.eqb_spec, SFeqb_refl, sf_key_nan.
  destruct (Prim2SF a); simpl; split; congruence.
Qed.

Lemma binary64_ltb (a b : float) :
  @ltb Binary64 a b = true
  <-> key_lt (binary64_key a) (binary64_key b) /\
      (fst (fst (binary64_key b)) <> 3)%Z.
Proof. simpl; rewrite FloatAxioms.ltb_spec; apply SFltb_key. Qed.

(** The order NumPy sorts by is the order of the keys. *)
Lemma binary64_npy_lt (a b : float) :
  @npy_lt Binary64 a b = true <-> key_lt (binary64_key a) (binary64_key b).
Proof.
  unfold npy_lt.
  rewrite orb_true_iff, andb_true_iff, binary64_ltb.
  change (negb (@eqb Binary64 b b)) with (@isnan Binary64 b).
  rewrite binary64_isnan.
  assert (Ha : @eqb Binary64 a a = true
               <-> (fst (fst (binary64_key a)) <> 3)%Z).
  { pose proof (binary64_isnan a) as Hnan; unfold isnan in Hnan.
    destruct (@eqb Binary64 a a); simpl in Hnan; split; intros H;
      [intros Heq; apply Hnan in Heq; discriminate | reflexivity | discriminate
      | exfalso; apply H, Hnan; reflexivity]. }
  rewrite Ha.
  pose proof (sf_key_range (Prim2SF a)) as Hra.
  pose proof (sf_key_range (Prim2SF b)) as Hrb.
  unfold binary64_key, key_lt in *.
  destruct (sf_key (Prim2SF a)) as [[a1 a2] a3].
  destruct (sf_key (Prim2SF b)) as [[b1 b2] b3].
  simpl; lia.
Qed.

Lemma binary64_key_neg (a : float) :
  binary64_key (@neg Binary64 a) = key_neg (binary64_key a).
Proof. unfold binary64_key; simpl; rewrite FloatAxioms.opp_spec; apply sf_key_opp. Qed.

Lemma binary64_npy_lt_asym (a b : float) :
  @npy_lt Binary64 a b = true -> @npy_lt Binary64 b a = false.
Proof.
  intros Hab; apply not_true_is_false; intros Hba.
  apply binary64_npy_lt in Hab, Hba; unfold key_lt in *.
  destruct (binary64_key a) as [[a1 a2] a3].
  destruct (binary64_key b) as [[b1 b2] b3]; lia.
Qed.

Lemma binary64_npy_le_trans (a b c : float) :
  @npy_lt Binary64 b a = false -> @npy_lt Binary64 c b = false ->
  @npy_lt Binary64 c a = false.
Proof.
  intros Hba Hcb; apply not_true_is_false; intros Hca.
  apply not_true_iff_false in Hba, Hcb.
  rewrite binary64_npy_lt in Hba, Hcb, Hca; unfold key_lt in *.
  destruct (binary64_key a) as [[a1 a2] a3].
  destruct (binary64_key b) as [[b1 b2] b3].
  destruct (binary64_key c) as [[c1 c2] c3]; lia.
Qed.

(** On binary64 too both runtimes sort as NumPy documents. *)
Lemma binary64_stable_runtime_sorts :
  numpy_argsort Binary64 (StableRuntime Binary64).
Proof.
  split; simpl.
  - apply stable_argsort_sorts;
      [exact binary64_npy_lt_asym | exact binary64_npy_le_trans].
  - exact nat_argsort_sorts.
Qed.


(** The smaller of two numbers has the greater opposite. *)
Lemma binary64_neg_reverses (a b : float) :
  @ltb Binary64 a b = true ->
  @npy_lt Binary64 (@neg Binary64 b) (@neg Binary64 a) = true.
Proof.
  intros Hab; apply binary64_ltb in Hab; destruct Hab as [Hlt Hb].
  apply binary64_npy_lt; rewrite !binary64_key_neg.
  pose proof (sf_key_range (Prim2SF a)) as Hra.
  pose proof (sf_key_range (Prim2SF b)) as Hrb.
  unfold binary64_key, key_lt, key_neg in *.
  destruct (sf_key (Prim2SF a)) as [[a1 a2] a3].
  destruct (sf_key (Prim2SF b)) as [[b1 b2] b3].
  simpl in Hb.
  destruct (Z.eqb_spec a1 3), (Z.eqb_spec b1 3); lia.
Qed.

(** NaN comes after every number, and so does its opposite. *)
Lemma binary64_nan_last (a b : float) :
  @isnan Binary64 a = true -> @isnan Binary64 b = false ->
  @npy_lt Binary64 (@neg Binary64 b) (@neg Binary64 a) = true.
Proof.
  intros Ha Hb; apply binary64_isnan in Ha.
  apply not_true_iff_false in Hb; rewrite binary64_isnan in Hb.
  apply binary64_npy_lt; rewrite !binary64_key_neg.
  pose proof (sf_key_range (Prim2SF a)) as Hra.
  pose proof (sf_key_range (Prim2SF b)) as Hrb.
  unfold binary64_key, key_lt, key_neg in *.
  destruct (sf_key (Prim2SF a)) as [[a1 a2] a3].
  destruct (sf_key (Prim2SF b)) as [[b1 b2] b3].
  simpl in Ha, Hb.
  destruct (Z.eqb_spec a1 3), (Z.eqb_spec b1 3); lia.
Qed.

(** ** Ranks *)

Lemma maximum_same {F : Float64} (a : num) : maximum a a = a.
Proof. unfold maximum; destruct (isnan a), (ltb a a); reflexivity. Qed.

Lemma minimum_same {F : Float64} (a : num) : minimum a a = a.
Proof. unfold minimum; destruct (isnan a), (ltb a a); reflexivity. Qed.

(** Two equal rows: both separations are zero, and both scores fall back to
    zero. *)
Lemma tied_data_scores (RT : Runtime Real64) :
  topsis_calculation tied_data unit_weights ["+"%string; "+"%string]
  = Ok ([0%R; 0%R], @topsis_ranks Real64 RT [0%R; 0%R]).
Proof.
  rewrite topsis_calculation_cases.
  assert (Hn : norm_axis0 tied_data = [R_sqrt.sqrt 2; R_sqrt.sqrt 2]).
  { unfold norm_axis0, norm, column; simpl.
    replace (0 + 1 * 1 + 1 * 1)%R with 2%R by ring; reflexivity. }
  assert (H2 : Reqb (R_sqrt.sqrt 2) 0 = false).
  { apply Reqb_false; intros H; apply sqrt_eq_0 in H; lra. }
  rewrite Hn; simpl existsb; rewrite H2; simpl.
  unfold weighted_matrix; rewrite Hn.
  unfold broadcast; simpl.
  set (v := (1 / R_sqrt.sqrt 2 * 1)%R).
  unfold ideal_best, ideal_worst, max_axis0, min_axis0, column; simpl.
  rewrite !(@maximum_same Real64), !(@minimum_same Real64).
  unfold separation, norm_axis1, broadcast, norm; simpl.
  replace (0 + (v - v) * (v - v) + (v - v) * (v - v))%R with 0%R by ring.
  rewrite sqrt_0.
  unfold topsis_scores, closeness; simpl.
  replace (Reqb (0 + 0) 0) with true by (symmetry; apply Reqb_true; ring).
  reflexivity.
Qed.

Lemma tied_keys_not_less : @npy_lt Real64 (- 0)%R (- 0)%R = false.
Proof. rewrite real_npy_lt; apply Rltb_false; lra. Qed.

Lemma tied_ranks_stable :
  @topsis_ranks Real64 (StableRuntime Real64) [0%R; 0%R] = [1; 2].
Proof.
  unfold topsis_ranks, argsort_float, StableRuntime, stable_argsort, argsort_by.
  simpl; rewrite tied_keys_not_less; reflexivity.
Qed.




(** The scores the engine returns, entry by entry. *)
Lemma topsis_calculation_scores {F : Float64} {RT : Runtime F}
  (data : ndarray2) weights impacts scores ranks :
  topsis_calculation data weights impacts = Ok (scores, ranks) ->
  length scores = length (rows data) /\
  forall i, i < length (rows data) ->
    nth i scores zero
    = closeness
        (norm (zip_with sub (nth i (rows (weighted_matrix data weights)) [])
                 (ideal_best impacts (weighted_matrix data weights))))
        (norm (zip_with sub (nth i (rows (weighted_matrix data weights)) [])
                 (ideal_worst impacts (weighted_matrix data weights)))) /\
    nth i (separation (weighted_matrix data weights)
             (ideal_best impacts (weighted_matrix data weights))) zero
    = norm (zip_with sub (nth i (rows (weighted_matrix data weights)) [])
              (ideal_best impacts (weighted_matrix data weights))) /\
    nth i (separation (weighted_matrix data weights)
             (ideal_worst impacts (weighted_matrix data weights))) zero
    = norm (zip_with sub (nth i (rows (weighted_matrix data weights)) [])
              (ideal_worst impacts (weighted_matrix data weights))).
Proof.
  rewrite topsis_calculation_cases.
  destruct (existsb _ (norm_axis0 data)); [discriminate|].
  intros Hok; cbv zeta in Hok; injection Hok as <- _.
  split.
  - unfold topsis_scores.
    rewrite zip_with_length, !separation_length, weighted_matrix_rows.
    apply Nat.min_id.
  - intros i Hi.
    rewrite <- !separation_nth by (rewrite weighted_matrix_rows; exact Hi).
    split; [|split; reflexivity].
    unfold topsis_scores; apply zip_with_nth;
      rewrite separation_length, weighted_matrix_rows; exact Hi.
Qed.

(** ** The engine on the reals *)

Section RealEngine.

#[local] Existing Instance Real64.

Lemma real_maximum (a b : R) : maximum a b = Rmax a b.
Proof.
  unfold maximum; rewrite real_isnan; simpl; unfold Rltb, Rmax.
  destruct (Rlt_dec b a), (Rle_dec a b); try reflexivity; lra.
Qed.

Lemma real_minimum (a b : R) : minimum a b = Rmin a b.
Proof.
  unfold minimum; rewrite real_isnan; simpl; unfold Rltb, Rmin.
  destruct (Rlt_dec a b), (Rle_dec a b); try reflexivity; lra.
Qed.

Lemma fold_maximum_greatest (l : list (@num Real64)) (x : @num Real64) :
  In (fold_left maximum l x) (x :: l) /\
  forall y, In y (x :: l) -> (y <= fold_left maximum l x)%R.
Proof.
  revert x; induction l as [|z l IH]; intros x; cbn [fold_left].
  - split; [left; reflexivity | intros y [<- | []]; lra].
  - destruct (IH (@maximum Real64 x z)) as [Hin Hub].
    rewrite real_maximum in Hin, Hub |- *.
    split.
    + destruct Hin as [Heq | Hin]; [|right; right; exact Hin].
      rewrite <- Heq; unfold Rmax; destruct (Rle_dec x z); simpl; auto.
    + intros y [<- | [<- | Hy]].
      * apply Rle_trans with (Rmax x z); [apply Rmax_l | apply Hub; left; auto].
      * apply Rle_trans with (Rmax x z); [apply Rmax_r | apply Hub; left; auto].
      * apply Hub; right; exact Hy.
Qed.

Lemma fold_minimum_least (l : list (@num Real64)) (x : @num Real64) :
  In (fold_left minimum l x) (x :: l) /\
  forall y, In y (x :: l) -> (fold_left minimum l x <= y)%R.
Proof.
  revert x; induction l as [|z l IH]; intros x; cbn [fold_left].
  - split; [left; reflexivity | intros y [<- | []]; lra].
  - destruct (IH (@minimum Real64 x z)) as [Hin Hlb].
    rewrite real_minimum in Hin, Hlb |- *.
    split.
    + destruct Hin as [Heq | Hin]; [|right; right; exact Hin].
      rewrite <- Heq; unfold Rmin; destruct (Rle_dec x z); simpl; auto.
    + intros y [<- | [<- | Hy]].
      * apply Rle_trans with (Rmin x z); [apply Hlb; left; auto | apply Rmin_l].
      * apply Rle_trans with (Rmin x z); [apply Hlb; left; auto | apply Rmin_r].
      * apply Hlb; right; exact Hy.
Qed.

Lemma column_length (a : ndarray2) j : length (column a j) = length (rows a).
Proof. apply length_map. Qed.

Lemma column_nth (a : ndarray2) i j :
  i < length (rows a) -> nth i (column a j) 0%R = entry a i j.
Proof.
  intros Hi; unfold column, entry.
  apply (nth_map_lt (fun row => nth j row 0%R) (rows a) i 0%R [] Hi).
Qed.

Lemma in_column (a : ndarray2) j m :
  In m (column a j) <-> exists i, i < length (rows a) /\ entry a i j = m.
Proof.
  split.
  - intros Hin; destruct (In_nth _ _ 0%R Hin) as (i & Hi & Hnth).
    rewrite column_length in Hi; exists i; rewrite <- column_nth; auto.
  - intros (i & Hi & <-); rewrite <- column_nth by exact Hi.
    apply nth_In; rewrite column_length; exact Hi.
Qed.

Lemma max_axis0_nth (a : ndarray2) j :
  j < ncols a -> rows a <> [] ->
  max_over_rows a j (nth j (max_axis0 a) 0%R).
Proof.
  intros Hj Hrows; unfold max_axis0.
  rewrite (nth_map_lt _ _ _ _ 0) by (rewrite length_seq; lia).
  rewrite seq_nth by lia; simpl.
  destruct (column a j) as [|x l] eqn:Hcol.
  - apply (f_equal (@length _)) in Hcol; rewrite column_length in Hcol.
    destruct (rows a); [congruence | discriminate].
  - destruct (fold_maximum_greatest l x) as [Hin Hub].
    unfold reduce; rewrite <- Hcol in Hin, Hub; split.
    + apply in_column, Hin.
    + intros i Hi; apply Hub, in_column; eauto.
Qed.

Lemma min_axis0_nth (a : ndarray2) j :
  j < ncols a -> rows a <> [] ->
  min_over_rows a j (nth j (min_axis0 a) 0%R).
Proof.
  intros Hj Hrows; unfold min_axis0.
  rewrite (nth_map_lt _ _ _ _ 0) by (rewrite length_seq; lia).
  rewrite seq_nth by lia; simpl.
  destruct (column a j) as [|x l] eqn:Hcol.
  - apply (f_equal (@length _)) in Hcol; rewrite column_length in Hcol.
    destruct (rows a); [congruence | discriminate].
  - destruct (fold_minimum_least l x) as [Hin Hlb].
    unfold reduce; rewrite <- Hcol in Hin, Hlb; split.
    + apply in_column, Hin.
    + intros i Hi; apply Hlb, in_column; eauto.
Qed.

Lemma where_nth (c : list bool) (x y : list R) j :
  j < length c -> j < length x -> j < length y ->
  nth j (where_ c x y) 0%R
  = if nth j c false then nth j x 0%R else nth j y 0%R.
Proof.
  revert x y j; induction c as [|b c IH]; intros [|u x] [|v y] [|j];
    simpl; intros Hc Hx Hy; try lia; auto.
  apply IH; lia.
Qed.

Lemma max_axis0_length (a : ndarray2) : length (max_axis0 a) = ncols a.
Proof. unfold max_axis0; rewrite length_map, length_seq; reflexivity. Qed.

Lemma min_axis0_length (a : ndarray2) : length (min_axis0 a) = ncols a.
Proof. unfold min_axis0; rewrite length_map, length_seq; reflexivity. Qed.

Lemma ideal_points_nth (impacts : list string) (a : ndarray2) j :
  j < ncols a -> length impacts = ncols a ->
  nth j (ideal_best impacts a) 0%R
  = (if String.eqb (nth j impacts EmptyString) "+"
     then nth j (max_axis0 a) 0%R else nth j (min_axis0 a) 0%R) /\
  nth j (ideal_worst impacts a) 0%R
  = (if String.eqb (nth j impacts EmptyString) "+"
     then nth j (min_axis0 a) 0%R else nth j (max_axis0 a) 0%R).
Proof.
  intros Hj Hlen; unfold ideal_best, ideal_worst.
  rewrite !where_nth
    by (rewrite ?length_map, ?max_axis0_length, ?min_axis0_length; lia).
  rewrite (nth_map_lt (fun imp => String.eqb imp "+") impacts j false EmptyString)
    by lia.
  split; reflexivity.
Qed.

(** C4. Every entry of the weighted matrix is the entry of the data divided
    by the norm of its column and multiplied by the weight of the column; the
    ideal best of a criterion is the greatest weighted entry of its column
    and the ideal worst the least one when the impact is [+], and the other
    way round when the impact is [-]. *)
Theorem weighted_matrix_and_ideal_points (data : ndarray2) (weights : list R)
  (impacts : list string) :
  well_shaped data ->
  length weights = ncols data ->
  length impacts = ncols data ->
  rows data <> [] ->
  (forall i j, i < length (rows data) -> j < ncols data ->
     entry (weighted_matrix data weights) i j
     = (entry data i j / norm (column data j) * nth j weights 0)%R) /\
  (forall j, j < ncols data ->
     (nth j impacts EmptyString = "+"%string ->
      max_over_rows (weighted_matrix data weights) j
        (nth j (ideal_best impacts (weighted_matrix data weights)) 0%R) /\
      min_over_rows (weighted_matrix data weights) j
        (nth j (ideal_worst impacts (weighted_matrix data weights)) 0%R)) /\
     (nth j impacts EmptyString = "-"%string ->
      min_over_rows (weighted_matrix data weights) j
        (nth j (ideal_best impacts (weighted_matrix data weights)) 0%R) /\
      max_over_rows (weighted_matrix data weights) j
        (nth j (ideal_worst impacts (weighted_matrix data weights)) 0%R))).
Proof.
  intros Hshape Hw Hi Hrows; split.
  - intros i j Hlt Hj.
    exact (@weighted_matrix_entry Real64 data weights i j Hshape Hw Hlt Hj).
  - intros j Hj.
    set (weighted := weighted_matrix data weights).
    assert (Hcols : ncols weighted = ncols data) by reflexivity.
    assert (Hne : rows weighted <> []).
    { intros Hnil; apply (f_equal (@length _)) in Hnil.
      unfold weighted in Hnil; rewrite weighted_matrix_rows in Hnil.
      destruct (rows data); [congruence | discriminate]. }
    destruct (ideal_points_nth impacts weighted j) as [-> ->];
      [lia | lia |].
    split; intros ->; simpl;
      split; first [apply max_axis0_nth | apply min_axis0_nth]; auto; lia.
Qed.

Lemma sum_squares_zero (v : list R) (acc : R) :
  (0 <= acc)%R ->
  (fold_left Rplus (map (fun x => x * x)%R v) acc = 0%R <->
   acc = 0%R /\ Forall (fun x => x = 0%R) v).
Proof.
  revert acc; induction v as [|x v IH]; intros acc Hacc; simpl.
  - split; [intros ->; auto | tauto].
  - rewrite IH by nra; split.
    + intros [Hsum Hall].
      assert (x = 0%R) by nra; subst x.
      split; [lra | constructor; auto].
    + intros [-> Hall]; inversion Hall; subst; split; [lra | assumption].
Qed.

(** On the reals the norm of a column is zero exactly when the column is
    zero throughout. *)
Lemma real_norm_zero_iff (v : list R) :
  eqb (norm v) 0%R = true <-> Forall (fun x => x = 0%R) v.
Proof.
  simpl; rewrite Reqb_true; unfold norm; simpl.
  assert (Hsum : forall (l : list R) acc, (0 <= acc)%R ->
            (0 <= fold_left Rplus (map (fun x => x * x)%R l) acc)%R).
  { induction l as [|x l IH]; intros acc Hacc; simpl; [exact Hacc|].
    apply IH; nra. }
  split.
  - intros Hzero; apply sqrt_eq_0 in Hzero; [|apply Hsum; lra].
    apply (sum_squares_zero v 0%R) in Hzero; [tauto | lra].
  - intros Hall.
    replace (fold_left Rplus (map (fun x => x * x)%R v) 0%R) with 0%R;
      [apply sqrt_0|].
    symmetry; apply sum_squares_zero; [lra | auto].
Qed.

Lemma norm_nonneg (v : list R) : (0 <= norm v)%R.
Proof. apply sqrt_pos. Qed.

Lemma real_closeness_bounds (sb sw : R) :
  (0 <= sb)%R -> (0 <= sw)%R -> (0 <= closeness sb sw <= 1)%R.
Proof.
  intros Hb Hw; unfold closeness; simpl; unfold Reqb.
  destruct (Req_dec_T (sb + sw) 0) as [Hz | Hnz]; simpl; [lra|].
  assert (Hd : (0 < sb + sw)%R) by lra.
  split.
  - apply Rmult_le_pos; [lra | left; apply Rinv_0_lt_compat, Hd].
  - replace 1%R with ((sb + sw) / (sb + sw))%R by (field; lra).
    apply Rmult_le_compat_r; [left; apply Rinv_0_lt_compat, Hd | lra].
Qed.

End RealEngine.

(** C2. In every arithmetic the score of an alternative is
    [s_worst / (s_best + s_worst)], computed in that arithmetic, when the sum
    is not zero, and 0 when it is zero.  In exact arithmetic every score
    lies between 0 and 1. *)
Theorem topsis_scores_closeness :
  (forall (F : Float64) (RT : Runtime F) (data : ndarray2)
     (weights : list num) (impacts : list string) (scores : list num)
     (ranks : list nat),
     topsis_calculation data weights impacts = Ok (scores, ranks) ->
     let weighted := weighted_matrix data weights in
     let s_best := separation weighted (ideal_best impacts weighted) in
     let s_worst := separation weighted (ideal_worst impacts weighted) in
     length scores = length (rows data) /\
     forall i, i < length (rows data) ->
       (eqb (add (nth i s_best zero) (nth i s_worst zero)) zero = false ->
        nth i scores zero
        = div (nth i s_worst zero)
            (add (nth i s_best zero) (nth i s_worst zero))) /\
       (eqb (add (nth i s_best zero) (nth i s_worst zero)) zero = true ->
        nth i scores zero = zero)) /\
  (forall (RT : Runtime Real64) (data : @ndarray2 Real64) (weights : list R)
     (impacts : list string) (scores : list R) (ranks : list nat),
     topsis_calculation data weights impacts = Ok (scores, ranks) ->
     forall i, i < length (rows data) -> (0 <= nth i scores 0 <= 1)%R).
Proof.
  split.
  - intros F RT data weights impacts scores ranks Hok; cbv zeta.
    destruct (topsis_calculation_scores data weights impacts scores ranks Hok)
      as [Hlen Hnth].
    split; [exact Hlen|].
    intros i Hi; destruct (Hnth i Hi) as (Hs & Hb & Hw).
    rewrite Hb, Hw, Hs; unfold closeness; cbv zeta.
    split; intros Hd; rewrite Hd; reflexivity.
  - intros RT data weights impacts scores ranks Hok i Hi.
    destruct (topsis_calculation_scores data weights impacts scores ranks Hok)
      as [_ Hnth].
    destruct (Hnth i Hi) as (Hs & _ & _).
    pose proof (real_closeness_bounds _ _
                  (norm_nonneg
                     (zip_with sub
                        (nth i (rows (weighted_matrix data weights)) [])
                        (ideal_best impacts (weighted_matrix data weights))))
                  (norm_nonneg
                     (zip_with sub
                        (nth i (rows (weighted_matrix data weights)) [])
                        (ideal_worst impacts (weighted_matrix data weights)))))
      as Hbounds.
    rewrite <- Hs in Hbounds; exact Hbounds.
Qed.

(** ** The whole run *)

Section Run.

Context {F : Float64} {RT : Runtime F}.

Lemma run_topsis_augmented (fs : filesystem)
  (input_path weights_arg impacts_arg output_path : string) :
  run_topsis fs input_path weights_arg impacts_arg output_path
  = bind (augmented_table (fs input_path) weights_arg impacts_arg)
      (fun out => Ok (to_csv fs output_path out)).
Proof.
  unfold run_topsis, augmented_table.
  change (read_and_validate_csv (fun _ => fs input_path) EmptyString)
    with (read_and_validate_csv fs input_path).
  destruct (read_and_validate_csv fs input_path) as [df| |]; simpl; try reflexivity.
  destruct (parse_and_validate _ _ _) as [[weights impacts]| |]; simpl;
    try reflexivity.
  destruct (to_numpy _ _) as [data|]; try reflexivity.
  destruct (topsis_calculation _ _ _) as [[scores ranks]| |]; reflexivity.
Qed.

Lemma to_numpy_shape (df : DataFrame) n data :
  to_numpy df n = Some data ->
  ncols data = length df /\ length (rows data) = n.
Proof.
  unfold to_numpy.
  destruct (traverse _ (seq 0 n)) as [rs|] eqn:Hrs; [|discriminate].
  intros Hdata; injection Hdata as <-; simpl.
  apply traverse_length in Hrs; rewrite length_seq in Hrs; auto.
Qed.

Lemma set_column_absent (df : DataFrame) name values :
  ~ In name (column_names df) -> set_column df name values = df ++ [(name, values)].
Proof.
  intros Hnot; unfold set_column.
  destruct (existsb _ df) eqn:Hex; [|reflexivity].
  apply existsb_exists in Hex; destruct Hex as (col & Hcol & Heq).
  apply String.eqb_eq in Heq; subst name.
  exfalso; apply Hnot, in_map, Hcol.
Qed.

(** What a run computes from a table: an error exit, or the table with the
    scores and the ranks set. *)
Lemma augmented_table_cases (f : file) weights_arg impacts_arg :
  numpy_argsort F RT ->
  (forall df, f = Table df -> rectangular df) ->
  fails (augmented_table f weights_arg impacts_arg) \/
  exists df scores ranks,
    f = Table df /\
    length scores = shape0 df /\
    Permutation ranks (seq 1 (shape0 df)) /\
    augmented_table f weights_arg impacts_arg
    = Ok (set_column (set_column df "Topsis Score" (map Num scores)) "Rank"
            (map (fun r => Int (Z.of_nat r)) ranks)).
Proof.
  intros Hsorts Hrect; unfold augmented_table.
  destruct f as [|e|df]; try (left; eexists; reflexivity).
  rewrite (read_and_validate_csv_cases _ _ df eq_refl).
  destruct (shape1 df <? 3); [left; eexists; reflexivity|].
  destruct (forallb _ (iloc_from1 df)) eqn:Hall; [|left; eexists; reflexivity].
  simpl; rewrite all_numeric_iff in Hall.
  assert (Hrect' : Forall (fun col => length (snd col) = shape0 df)
                     (iloc_from1 df)).
  { specialize (Hrect df eq_refl); unfold rectangular in Hrect.
    rewrite Forall_forall in Hrect |- *; intros col Hcol; apply Hrect.
    destruct df; [destruct Hcol | right; exact Hcol]. }
  destruct (to_numpy_numeric _ _ Hrect' Hall) as (data & Hdata & _ & Hrows & _).
  destruct (parse_and_validate_cases weights_arg impacts_arg
              (Z.of_nat (shape1 df) - 1))
    as [[_ ->] | (ws & _ & [[_ ->] | [(_ & _ & ->) | (_ & _ & _ & ->)]])];
    try (left; eexists; reflexivity).
  simpl; rewrite Hdata.
  destruct (topsis_calculation data ws (tokens impacts_arg))
    as [[scores ranks]|out code|exc] eqn:Hok.
  - simpl; right; exists df, scores, ranks.
    destruct (topsis_scores_length _ _ _ _ _ Hok) as [Hlen ->].
    rewrite <- Hrows, <- Hlen; repeat split; auto.
    apply (topsis_ranks_permutation Hsorts).
  - left; rewrite topsis_calculation_cases in Hok.
    destruct (existsb _ (norm_axis0 data)); [|discriminate].
    injection Hok as <- <-; eexists; reflexivity.
  - rewrite topsis_calculation_cases in Hok.
    destruct (existsb _ (norm_axis0 data)); discriminate.
Qed.

End Run.

(** C7. A run either fails or succeeds.  When it fails it has printed one
    [Error:] line, exits with code 1 and has written nothing.  When it
    succeeds it has written, at the output path only, a table with one score
    and one rank per row of the input; and when no column of the input is
    already called [Topsis Score] or [Rank], that table is the input table
    followed by these two columns. *)
Theorem run_topsis_fails_or_appends (F : Float64) (RT : Runtime F)
  (fs : filesystem) (input_path weights_arg impacts_arg output_path : string) :
  numpy_argsort F RT ->
  (forall df, fs input_path = Table df -> rectangular df) ->
  (exists message,
     run_topsis fs input_path weights_arg impacts_arg output_path
     = SystemExit [("Error: " ++ message)%string] 1%Z /\
     main [input_path; weights_arg; impacts_arg; output_path] fs
     = Process fs [("Error: " ++ message)%string] 1%Z) \/
  (exists df scores ranks out,
     fs input_path = Table df /\
     run_topsis fs input_path weights_arg impacts_arg output_path
     = Ok (to_csv fs output_path out) /\
     main [input_path; weights_arg; impacts_arg; output_path] fs
     = Process (to_csv fs output_path out)
         [("Result written to " ++ output_path)%string] 0%Z /\
     length scores = shape0 df /\
     Permutation ranks (seq 1 (shape0 df)) /\
     (~ In "Topsis Score"%string (column_names df) ->
      ~ In "Rank"%string (column_names df) ->
      out = df ++ [("Topsis Score"%string, map Num scores);
                   ("Rank"%string, map (fun r => Int (Z.of_nat r)) ranks)])).
Proof.
  intros Hsorts Hrect.
  unfold main; rewrite run_topsis_augmented.
  destruct (augmented_table_cases (fs input_path) weights_arg impacts_arg
              Hsorts Hrect)
    as [(m & ->) | (df & scores & ranks & Hfs & Hlen & Hperm & ->)].
  - left; exists m; split; reflexivity.
  - right; eexists df, scores, ranks, _; repeat split; auto.
    intros Hscore Hrank.
    rewrite (set_column_absent df) by exact Hscore.
    rewrite set_column_absent; [rewrite <- app_assoc; reflexivity|].
    unfold column_names in *; rewrite map_app, in_app_iff; simpl.
    intros [Hin | [Heq | []]]; [auto | discriminate].
Qed.

Lemma items_rectangular :
  forall df, shelf "items.csv"%string = Table df -> rectangular df.
Proof.
  intros df Hdf; injection Hdf as <-.
  unfold rectangular; simpl; repeat constructor.
Qed.

Lemma run_topsis_fails_or_appends_witness :
  (exists message,
     @run_topsis Real64 (StableRuntime Real64) shelf "items.csv" "1,1" "+,+"
       "ranked.csv"
     = SystemExit [("Error: " ++ message)%string] 1%Z /\
     @main Real64 (StableRuntime Real64)
       ["items.csv"; "1,1"; "+,+"; "ranked.csv"]%string shelf
     = Process shelf [("Error: " ++ message)%string] 1%Z) \/
  (exists df scores ranks out,
     shelf "items.csv"%string = Table df /\
     @run_topsis Real64 (StableRuntime Real64) shelf "items.csv" "1,1" "+,+"
       "ranked.csv"
     = Ok (to_csv shelf "ranked.csv" out) /\
     @main Real64 (StableRuntime Real64)
       ["items.csv"; "1,1"; "+,+"; "ranked.csv"]%string shelf
     = Process (to_csv shelf "ranked.csv" out)
         ["Result written to ranked.csv"%string] 0%Z /\
     length scores = shape0 df /\
     Permutation ranks (seq 1 (shape0 df)) /\
     (~ In "Topsis Score"%string (column_names df) ->
      ~ In "Rank"%string (column_names df) ->
      out = df ++ [("Topsis Score"%string, map Num scores);
                   ("Rank"%string, map (fun r => Int (Z.of_nat r)) ranks)])).
Proof.
  exact (run_topsis_fails_or_appends Real64 (StableRuntime Real64) shelf
           "items.csv" "1,1" "+,+" "ranked.csv"
           stable_runtime_sorts items_rectangular).
Defined.

(** C7 as stated fails: a table that has a criterion called [Rank] comes
    back with that column overwritten by the ranks and one new column only,
    not with two columns added. *)
Lemma run_topsis_overwrites_rank_column :
  exists fs' out,
    @run_topsis Binary64 (StableRuntime Binary64) disk "league.csv" "1,1"
      "-,+" "out.csv" = Ok fs' /\
    fs' "out.csv"%string = Table out /\
    column_names out
    = ["Team"%string; "Rank"%string; "Points"%string; "Topsis Score"%string] /\
    nth 1 league (EmptyString, []) = ("Rank"%string, [Int 1; Int 2; Int 3]) /\
    nth 1 out (EmptyString, []) = ("Rank"%string, [Int 2; Int 1; Int 3]) /\
    ~ appends_two_columns league out.
Proof.
  eexists; eexists.
  split; [vm_compute; reflexivity|].
  split; [vm_compute; reflexivity|].
  split; [reflexivity|].
  split; [reflexivity|].
  split; [reflexivity|].
  intros (scores & ranks & Heq).
  apply (f_equal (@length _)) in Heq; discriminate.
Qed.

(** C8. Two runs on the same table with the same weights and impacts end in
    the same way: the same error line and exit code, or the same table
    written; nothing else enters the result. *)
Theorem run_topsis_deterministic (F : Float64) (RT : Runtime F)
  (fs1 fs2 : filesystem) (input1 input2 weights_arg impacts_arg : string)
  (output1 output2 : string) :
  fs1 input1 = fs2 input2 ->
  same_outcome
    (run_topsis fs1 input1 weights_arg impacts_arg output1)
    (run_topsis fs2 input2 weights_arg impacts_arg output2)
    output1 output2.
Proof.
  intros Hsame; rewrite !run_topsis_augmented, Hsame.
  destruct (augmented_table (fs2 input2) weights_arg impacts_arg)
    as [out|out code|exc]; simpl; auto.
  unfold to_csv; rewrite !String.eqb_refl; reflexivity.
Qed.

Lemma run_topsis_deterministic_witness :
  same_outcome
    (@run_topsis Binary64 (StableRuntime Binary64) disk "phones.csv"
       "1,1,1,1" "-,+,+,+" "first.csv")
    (@run_topsis Binary64 (StableRuntime Binary64)
       (to_csv disk "copy.csv" phones) "copy.csv"
       "1,1,1,1" "-,+,+,+" "second.csv")
    "first.csv" "second.csv".
Proof.
  apply (run_topsis_deterministic Binary64 (StableRuntime Binary64) disk
           (to_csv disk "copy.csv" phones) "phones.csv" "copy.csv").
  reflexivity.
Defined.

(** C10. The weights are not checked for their sign: whatever numbers the
    weight tokens denote, zero and negative ones too, validation returns
    them as they are when the counts match, and the weighting multiplies by
    them as they are. *)
Theorem weights_are_not_checked_for_sign (F : Float64) (RT : Runtime F)
  (weights_arg impacts_arg : string) (n : Z) (weights : list num) :
  traverse float_of_str (tokens weights_arg) = Some weights ->
  Forall (fun t => t = "+"%string \/ t = "-"%string) (tokens impacts_arg) ->
  Z.of_nat (length weights) = n ->
  Z.of_nat (length (tokens impacts_arg)) = n ->
  parse_and_validate weights_arg impacts_arg n
  = Ok (weights, tokens impacts_arg) /\
  (forall data i j,
     well_shaped data -> ncols data = length weights ->
     i < length (rows data) -> j < ncols data ->
     entry (weighted_matrix data weights) i j
     = mul (div (entry data i j) (norm (column data j))) (nth j weights zero)).
Proof.
  intros Hws Hall Hw Hi; split.
  - destruct (parse_and_validate_cases weights_arg impacts_arg n)
      as [[Hnone _] | (ws & Hws' & [[Hf _] | [(_ & Hne & _) | Hok]])].
    + congruence.
    + apply forallb_is_impact in Hall; congruence.
    + assert (ws = weights) by congruence; subst ws.
      destruct Hne; contradiction.
    + destruct Hok as (_ & _ & _ & ->); congruence.
  - intros data i j Hshape Hcols Hlt Hj.
    apply weighted_matrix_entry; auto.
Qed.

Lemma weights_are_not_checked_for_sign_witness :
  @parse_and_validate Binary64 (StableRuntime Binary64) "0,-1.5" "+,-" 2
  = Ok ([0%float; (-1.5)%float], ["+"%string; "-"%string]) /\
  (forall data i j,
     well_shaped data -> ncols data = 2 ->
     i < length (rows data) -> j < ncols data ->
     entry (@weighted_matrix Binary64 data [0%float; (-1.5)%float]) i j
     = PrimFloat.mul (PrimFloat.div (entry data i j) (norm (column data j)))
         (nth j [0%float; (-1.5)%float] 0%float)).
Proof.
  apply (weights_are_not_checked_for_sign Binary64 (StableRuntime Binary64)
           "0,-1.5" "+,-" 2 [0%float; (-1.5)%float]).
  - vm_compute; reflexivity.
  - vm_compute; repeat (apply Forall_cons; [auto|]); apply Forall_nil.
  - reflexivity.
  - reflexivity.
Defined.

(** ** The properties at the example inputs *)

Lemma tied_data_well_shaped : well_shaped tied_data.
Proof. unfold well_shaped; simpl; repeat constructor. Qed.

Lemma tied_data_rows : rows tied_data <> [].
Proof. discriminate. Qed.

(** The two crossed alternatives on the reals, the first criterion a benefit
    and the second a cost: the first alternative is the ideal worst and
    scores 0, the second is the ideal best and scores 1, and neither sum of
    separations is zero. *)
Lemma crossed_scores (RT : Runtime Real64) :
  topsis_calculation crossed unit_weights ["+"%string; "-"%string]
  = Ok ([0%R; 1%R], @topsis_ranks Real64 RT [0%R; 1%R]).
Proof.
  rewrite topsis_calculation_cases.
  assert (Hn : norm_axis0 crossed = [R_sqrt.sqrt 5; R_sqrt.sqrt 5]).
  { unfold norm_axis0, norm, column; simpl.
    replace (0 + 1 * 1 + 2 * 2)%R with 5%R by ring.
    replace (0 + 2 * 2 + 1 * 1)%R with 5%R by ring; reflexivity. }
  assert (H5 : (0 < R_sqrt.sqrt 5)%R) by (apply sqrt_lt_R0; lra).
  assert (H5z : Reqb (R_sqrt.sqrt 5) 0 = false) by (apply Reqb_false; lra).
  rewrite Hn; simpl existsb; rewrite H5z; simpl.
  unfold weighted_matrix; rewrite Hn.
  unfold broadcast; simpl.
  set (a := (1 / R_sqrt.sqrt 5 * 1)%R).
  set (b := (2 / R_sqrt.sqrt 5 * 1)%R).
  assert (Hab : (a < b)%R).
  { unfold a, b, Rdiv; rewrite !Rmult_1_r.
    apply Rmult_lt_compat_r; [apply Rinv_0_lt_compat, H5 | lra]. }
  unfold ideal_best, ideal_worst, max_axis0, min_axis0, column, reduce; simpl.
  rewrite !real_maximum, !real_minimum.
  rewrite (Rmax_right a b), (Rmax_left b a), (Rmin_left a b), (Rmin_right b a)
    by lra.
  unfold separation, norm_axis1, broadcast, norm; simpl.
  replace (0 + (a - a) * (a - a) + (b - b) * (b - b))%R with 0%R by ring.
  replace (0 + (b - b) * (b - b) + (a - a) * (a - a))%R with 0%R by ring.
  rewrite sqrt_0.
  replace (0 + (b - a) * (b - a) + (a - b) * (a - b))%R
    with (0 + (a - b) * (a - b) + (b - a) * (b - a))%R by ring.
  set (D := R_sqrt.sqrt (0 + (a - b) * (a - b) + (b - a) * (b - a))).
  assert (HD : (0 < D)%R) by (apply sqrt_lt_R0; nra).
  unfold topsis_scores, closeness; simpl.
  replace (Reqb (D + 0) 0) with false by (symmetry; apply Reqb_false; lra).
  replace (Reqb (0 + D) 0) with false by (symmetry; apply Reqb_false; lra).
  simpl.
  replace (0 / (D + 0))%R with 0%R by (field; lra).
  replace (D / (0 + D))%R with 1%R by (field; lra).
  reflexivity.
Qed.

Lemma crossed_ranks_stable :
  @topsis_ranks Real64 (StableRuntime Real64) [0%R; 1%R] = [2; 1].
Proof.
  unfold topsis_ranks, argsort_float, StableRuntime, stable_argsort, argsort_by.
  simpl.
  replace (@npy_lt Real64 (- (1))%R (- 0)%R) with true
    by (symmetry; rewrite real_npy_lt; apply Rltb_true; lra).
  reflexivity.
Qed.

(** The formula on the five phones in binary64, where no sum of separations
    is zero, and the bound on the two crossed alternatives. *)
Lemma topsis_scores_closeness_witness :
  (let weighted := weighted_matrix phones_data quarter_weights in
   let s_best := separation weighted (ideal_best phones_impacts weighted) in
   let s_worst := separation weighted (ideal_worst phones_impacts weighted) in
   length phones_scores = length (rows phones_data) /\
   forall i, i < length (rows phones_data) ->
     (eqb (add (nth i s_best zero) (nth i s_worst zero)) zero = false ->
      nth i phones_scores zero
      = div (nth i s_worst zero)
          (add (nth i s_best zero) (nth i s_worst zero))) /\
     (eqb (add (nth i s_best zero) (nth i s_worst zero)) zero = true ->
      nth i phones_scores zero = zero)) /\
  (forall i, i < length (rows crossed) -> (0 <= nth i [0%R; 1%R] 0 <= 1)%R).
Proof.
  split.
  - apply (proj1 topsis_scores_closeness Binary64 (StableRuntime Binary64)
             phones_data quarter_weights phones_impacts phones_scores
             [3; 5; 1; 2; 4]).
    vm_compute; reflexivity.
  - apply (proj2 topsis_scores_closeness (StableRuntime Real64) crossed
             unit_weights ["+"%string; "-"%string] [0%R; 1%R] [2; 1]).
    rewrite crossed_scores, crossed_ranks_stable; reflexivity.
Defined.

(** C2 as stated fails, on binary64: with two weights of 2^664 the squares
    of the weighted differences overflow, both separations of both
    alternatives are infinite, their sum is infinite and so not zero, and
    the quotient of two infinities is NaN, which is not in the unit
    interval. *)
Lemma scores_leave_unit_interval_on_overflow :
  @topsis_calculation Binary64 (StableRuntime Binary64) crossed64 huge_weights
    ["+"%string; "+"%string] = Ok ([nan; nan]%float, [1; 2]) /\
  (let weighted := @weighted_matrix Binary64 crossed64 huge_weights in
   separation weighted (ideal_best ["+"%string; "+"%string] weighted)
   = [infinity; infinity]%float /\
   separation weighted (ideal_worst ["+"%string; "+"%string] weighted)
   = [infinity; infinity]%float) /\
  @eqb Binary64 (@add Binary64 infinity infinity) (@zero Binary64) = false /\
  @in_unit_interval Binary64 nan = false /\
  ~ scores_in_unit_interval Binary64 (StableRuntime Binary64).
Proof.
  assert (Hrun : @topsis_calculation Binary64 (StableRuntime Binary64)
                   crossed64 huge_weights ["+"%string; "+"%string]
                 = Ok ([nan; nan]%float, [1; 2]))
    by (vm_compute; reflexivity).
  split; [exact Hrun|].
  split; [split; vm_compute; reflexivity|].
  split; [vm_compute; reflexivity|].
  split; [vm_compute; reflexivity|].
  intros Hall.
  specialize (Hall _ _ _ _ _ Hrun 0 ltac:(simpl; lia)
                ltac:(vm_compute; reflexivity)).
  vm_compute in Hall; discriminate.
Qed.

Lemma weighted_matrix_and_ideal_points_witness :
  (forall i j, i < length (rows tied_data) -> j < ncols tied_data ->
     entry (weighted_matrix tied_data unit_weights) i j
     = (entry tied_data i j / norm (column tied_data j)
        * nth j unit_weights 0)%R) /\
  (forall j, j < ncols tied_data ->
     (nth j ["+"%string; "-"%string] EmptyString = "+"%string ->
      max_over_rows (weighted_matrix tied_data unit_weights) j
        (nth j (ideal_best ["+"%string; "-"%string]
                  (weighted_matrix tied_data unit_weights)) 0%R) /\
      min_over_rows (weighted_matrix tied_data unit_weights) j
        (nth j (ideal_worst ["+"%string; "-"%string]
                  (weighted_matrix tied_data unit_weights)) 0%R)) /\
     (nth j ["+"%string; "-"%string] EmptyString = "-"%string ->
      min_over_rows (weighted_matrix tied_data unit_weights) j
        (nth j (ideal_best ["+"%string; "-"%string]
                  (weighted_matrix tied_data unit_weights)) 0%R) /\
      max_over_rows (weighted_matrix tied_data unit_weights) j
        (nth j (ideal_worst ["+"%string; "-"%string]
                  (weighted_matrix tied_data unit_weights)) 0%R))).
Proof.
  apply (weighted_matrix_and_ideal_points tied_data unit_weights
           ["+"%string; "-"%string]).
  - exact tied_data_well_shaped.
  - reflexivity.
  - reflexivity.
  - exact tied_data_rows.
Defined.

Lemma topsis_calculation_degenerate_column_witness :
  @main Binary64 (StableRuntime Binary64)
    ["flat.csv"; "1,1"; "-,+"; "out.csv"]%string disk
  = Process disk ["Error: Column with all zeros detected"%string] 1%Z.
Proof.
  apply (proj2 (proj2 (proj2
           (@topsis_calculation_degenerate_column Binary64
              (StableRuntime Binary64)
              (@Array2 Binary64 2 [[0%float; 1%float]; [0%float; 2%float]])
              [1%float; 1%float] ["-"%string; "+"%string])))
           disk "flat.csv"%string "1,1"%string "-,+"%string "out.csv"%string
           flat).
  - vm_compute; reflexivity.
  - vm_compute; reflexivity.
  - vm_compute; reflexivity.
  - eexists; vm_compute; reflexivity.
Defined.

Lemma parse_and_validate_checks_witness :
  fails (@parse_and_validate Binary64 (StableRuntime Binary64)
           "0.5,half" "+,-" 2) /\
  fails (@parse_and_validate Binary64 (StableRuntime Binary64)
           "0.5,0.5" "+,plus" 2) /\
  fails (@parse_and_validate Binary64 (StableRuntime Binary64)
           "0.5,0.5" "+,-,+" 2) /\
  @parse_and_validate Binary64 (StableRuntime Binary64) " 0.5, 0.5 " "+ , -" 2
  = Ok ([0.5%float; 0.5%float], ["+"%string; "-"%string]).
Proof.
  split; [|split; [|split]].
  - apply (proj1 (@parse_and_validate_checks Binary64 (StableRuntime Binary64)
                    "0.5,half" "+,-" 2)).
    exists "half"%string; split; [right; left|]; reflexivity.
  - apply (proj1 (proj2 (@parse_and_validate_checks Binary64
                           (StableRuntime Binary64) "0.5,0.5" "+,plus" 2))).
    exists "plus"%string; split; [right; left; reflexivity|].
    split; discriminate.
  - apply (proj1 (proj2 (proj2 (proj2 (@parse_and_validate_checks Binary64
                           (StableRuntime Binary64) "0.5,0.5" "+,-,+" 2))))).
    discriminate.
  - apply (proj2 (proj2 (proj2 (proj2 (@parse_and_validate_checks Binary64
                           (StableRuntime Binary64) " 0.5, 0.5 " "+ , -" 2))))
             [0.5%float; 0.5%float]).
    + vm_compute; reflexivity.
    + vm_compute; repeat (apply Forall_cons; [auto|]); apply Forall_nil.
    + reflexivity.
    + reflexivity.
Defined.

Lemma read_and_validate_csv_checks_witness :
  @read_and_validate_csv Binary64 (StableRuntime Binary64) disk "phones.csv"
  = Ok phones.
Proof.
  apply (proj1 (proj2 (proj2
           (@read_and_validate_csv_checks Binary64 (StableRuntime Binary64)
              disk "phones.csv" phones eq_refl)))).
  - simpl; lia.
  - apply (proj1 (all_numeric_iff (iloc_from1 phones))).
    vm_compute; reflexivity.
Defined.

Lemma empty_impact_tokens_are_dropped_witness :
  @parse_and_validate Binary64 (StableRuntime Binary64) "1,1" "+,,-" 2
  = Ok ([1%float; 1%float], ["+"%string; "-"%string]).
Proof.
  apply (proj2 (proj2 (proj2 (proj2
           (@empty_impact_tokens_are_dropped Binary64
              (StableRuntime Binary64)))))
           "1,1"%string [1%float; 1%float]).
  - vm_compute; reflexivity.
  - reflexivity.
Defined.

(** ** The portable quicksort on equal scores *)

(** On eighteen equal keys the quicksort of NumPy exchanges positions while
    it partitions, and the ranks of the eighteen equal rows come out of the
    order of the rows. *)
Lemma portable_argsort_on_equal_scores :
  npy_aquicksort (@num Binary64) npy_lt zero (map neg (repeat zero 18))
  = Some [0; 15; 14; 13; 12; 11; 10; 9; 8; 7; 6; 5; 4; 3; 2; 1; 16; 17] /\
  exists fs' out,
    @run_topsis Binary64 (PortableRuntime Binary64) disk "clones.csv" "1,1"
      "+,+" "out.csv" = Ok fs' /\
    fs' "out.csv"%string = Table out /\
    nth 3 out (EmptyString, [])
    = ("Topsis Score"%string, repeat (@Num Binary64 zero) 18) /\
    nth 4 out (EmptyString, [])
    = ("Rank"%string,
       map (fun r => Int (Z.of_nat r))
         [1; 16; 15; 14; 13; 12; 11; 10; 9; 8; 7; 6; 5; 4; 3; 2; 17; 18]) /\
    @stable_ranks Binary64 (repeat zero 18) = seq 1 18.
Proof.
  split; [vm_compute; reflexivity|].
  eexists; eexists.
  split; [vm_compute; reflexivity|].
  split; [vm_compute; reflexivity|].
  split; [vm_compute; reflexivity|].
  split; vm_compute; reflexivity.
Qed.

(** ** A run on binary64 *)

(** The five alternatives, equal weights, the price a cost and the other
    criteria benefits: the third alternative comes first. *)
Lemma phones_ranked :
  exists fs' out,
    @run_topsis Binary64 (StableRuntime Binary64) disk "phones.csv"
      "0.25,0.25,0.25,0.25" "-,+,+,+" "ranked.csv" = Ok fs' /\
    fs' "ranked.csv"%string = Table out /\
    column_names out
    = column_names phones ++ ["Topsis Score"%string; "Rank"%string] /\
    nth 6 out (EmptyString, [])
    = ("Rank"%string, [Int 3; Int 5; Int 1; Int 2; Int 4]).
Proof.
  eexists; eexists.
  split; [vm_compute; reflexivity|].
  split; [vm_compute; reflexivity|].
  split; reflexivity.
Qed.

(** * More of the program *)

(** ** Tokens *)

Lemma split_pieces_without_sep sep s piece :
  In piece (split sep s) -> ~ In sep (chars piece).
Proof.
  revert piece; induction s as [|c r IH]; simpl; intros piece Hin.
  - destruct Hin as [<- | []]; intros [].
  - destruct (Ascii.eqb_spec c sep) as [-> | Hne].
    + destruct Hin as [<- | Hin]; [intros [] | auto].
    + destruct (split sep r) as [|tok toks]; simpl in Hin.
      * destruct Hin as [<- | []]; simpl; intros [Heq | []]; congruence.
      * destruct Hin as [<- | Hin]; [|apply IH; right; exact Hin].
        simpl; intros [Heq | Hin]; [congruence|].
        apply (IH tok); [left; reflexivity | exact Hin].
Qed.

Lemma lstrip_chars s a : In a (chars (lstrip s)) -> In a (chars s).
Proof.
  induction s as [|c r IH]; simpl; [auto|].
  destruct (isspace c); [right; auto | auto].
Qed.

Lemma rstrip_chars s a : In a (chars (rstrip s)) -> In a (chars s).
Proof.
  induction s as [|c r IH]; simpl; [auto|].
  destruct (rstrip r) as [|c' r'] eqn:Hr.
  - destruct (isspace c); simpl; [intros [] | intros [<- | []]; auto].
  - simpl; intros [<- | Hin]; [auto | right; apply IH; exact Hin].
Qed.

Lemma lstrip_head s :
  match lstrip s with
  | EmptyString => True
  | String c _ => isspace c = false
  end.
Proof.
  induction s as [|c r IH]; simpl; [exact I|].
  destruct (isspace c) eqn:Hc; [exact IH | exact Hc].
Qed.

Lemma lstrip_fixed c r : isspace c = false -> lstrip (String c r) = String c r.
Proof. intros Hc; simpl; rewrite Hc; reflexivity. Qed.

Lemma rstrip_head c r :
  isspace c = false -> exists r', rstrip (String c r) = String c r'.
Proof.
  intros Hc; simpl; destruct (rstrip r); [rewrite Hc|]; eauto.
Qed.

Lemma rstrip_idempotent s : rstrip (rstrip s) = rstrip s.
Proof.
  induction s as [|c r IH]; simpl; [reflexivity|].
  destruct (rstrip r) as [|c' r'] eqn:Hr.
  - destruct (isspace c) eqn:Hc; simpl; [reflexivity | rewrite Hc; reflexivity].
  - simpl; simpl in IH; rewrite IH.
    destruct (match rstrip r' with
              | EmptyString => if isspace c' then EmptyString
                               else String c' EmptyString
              | String a s0 => String c' (String a s0)
              end); [discriminate IH | reflexivity].
Qed.

(** [strip] leaves a stripped string as it is. *)
Lemma strip_idempotent s : strip (strip s) = strip s.
Proof.
  unfold strip.
  pose proof (lstrip_head s) as Hhead.
  destruct (lstrip s) as [|c r]; [reflexivity|].
  destruct (rstrip_head c r Hhead) as (r' & Hr); rewrite Hr.
  rewrite (lstrip_fixed c r' Hhead), <- Hr.
  apply rstrip_idempotent.
Qed.

Lemma split_without_sep sep s :
  ~ In sep (chars s) -> split sep s = [s].
Proof.
  induction s as [|c r IH]; simpl; intros Hno; [reflexivity|].
  destruct (Ascii.eqb_spec c sep) as [-> | Hne]; [exfalso; auto|].
  rewrite IH by auto; reflexivity.
Qed.

Lemma split_concat sep l :
  l <> [] -> Forall (fun t => ~ In sep (chars t)) l ->
  split sep (String.concat (String sep EmptyString) l) = l.
Proof.
  induction l as [|x l IH]; intros Hne Hall; [congruence|].
  inversion Hall as [|? ? Hx Hl]; subst.
  destruct l as [|y l]; [apply split_without_sep, Hx|].
  change (String.concat (String sep EmptyString) (x :: y :: l))
    with (x ++ String sep (String.concat (String sep EmptyString) (y :: l)))%string.
  rewrite split_app, IH by (auto; discriminate).
  rewrite split_without_sep by exact Hx; reflexivity.
Qed.

Ltac clean_by_computation :=
  unfold clean_token; split; [discriminate | split; [reflexivity|]];
  let H := fresh in
  intros H; vm_compute in H; repeat destruct H as [H | H];
  first [discriminate | contradiction].

(** X1. Every token of an argument is clean: it is not empty, it has no
    white space at either end, and it holds no comma. *)
Theorem tokens_are_clean (arg t : string) :
  In t (tokens arg) -> clean_token t.
Proof.
  unfold tokens; rewrite filter_In, in_map_iff.
  intros [(piece & <- & Hpiece) Htruthy]; repeat split.
  - intros Hempty; rewrite Hempty in Htruthy; discriminate.
  - apply strip_idempotent.
  - intros Hin; apply rstrip_chars, lstrip_chars in Hin.
    exact (split_pieces_without_sep _ _ _ Hpiece Hin).
Qed.

Lemma tokens_are_clean_witness : clean_token "0.25".
Proof.
  apply (tokens_are_clean " 0.25 , 0.5,,"%string).
  vm_compute; left; reflexivity.
Defined.

(** X2. Joining clean tokens with commas and reading the tokens back gives
    the tokens again; so reading, joining and reading again changes
    nothing. *)
Theorem tokens_of_joined_tokens (l : list string) :
  Forall clean_token l ->
  tokens (String.concat "," l) = l.
Proof.
  intros Hall; destruct l as [|x l]; [reflexivity|].
  unfold tokens; rewrite split_concat.
  - induction Hall as [|t r (Hne & Hstrip & _) Hr IH]; [reflexivity|].
    simpl; rewrite Hstrip.
    destruct t; [congruence|]; simpl; f_equal; exact IH.
  - discriminate.
  - apply (Forall_impl _ (fun t (H : clean_token t) => proj2 (proj2 H))), Hall.
Qed.

Lemma tokens_of_joined_tokens_witness :
  tokens (String.concat "," ["0.25"; "-"; "1e3"]%string)
  = ["0.25"; "-"; "1e3"]%string.
Proof.
  apply (tokens_of_joined_tokens ["0.25"; "-"; "1e3"]%string).
  repeat (apply Forall_cons; [clean_by_computation|]).
  apply Forall_nil.
Defined.

(** ** Exits *)

Section Exits.

Context {F : Float64} {RT : Runtime F}.

Lemma parse_and_validate_exit weights_arg impacts_arg n out code :
  parse_and_validate weights_arg impacts_arg n = SystemExit out code ->
  exists message, out = [("Error: " ++ message)%string] /\ code = 1%Z.
Proof.
  destruct (parse_and_validate_cases weights_arg impacts_arg n)
    as [[_ ->] | (ws & _ & [[_ ->] | [(_ & _ & ->) | (_ & _ & _ & ->)]])];
    intros Hexit; try discriminate;
    injection Hexit as <- <-; eexists; split; reflexivity.
Qed.

Lemma read_and_validate_csv_exit (fs : filesystem) path out code :
  read_and_validate_csv fs path = SystemExit out code ->
  exists message, out = [("Error: " ++ message)%string] /\ code = 1%Z.
Proof.
  unfold read_and_validate_csv.
  destruct (fs path) as [|e|df].
  - intros Hexit; injection Hexit as <- <-; eexists; split; reflexivity.
  - intros Hexit; injection Hexit as <- <-; eexists; split; reflexivity.
  - destruct (shape1 df <? 3);
      [intros Hexit; injection Hexit as <- <-; eexists; split; reflexivity|].
    destruct (negb _); [|discriminate].
    intros Hexit; injection Hexit as <- <-; eexists; split; reflexivity.
Qed.

Lemma topsis_calculation_exit (data : ndarray2) weights impacts out code :
  topsis_calculation data weights impacts = SystemExit out code ->
  out = ["Error: Column with all zeros detected"%string] /\ code = 1%Z.
Proof.
  rewrite topsis_calculation_cases.
  destruct (existsb _ (norm_axis0 data)); [|discriminate].
  intros Hexit; injection Hexit as <- <-; split; reflexivity.
Qed.

Lemma topsis_calculation_not_uncaught (data : ndarray2) weights impacts exc :
  topsis_calculation data weights impacts <> Uncaught exc.
Proof.
  rewrite topsis_calculation_cases.
  destruct (existsb _ (norm_axis0 data)); discriminate.
Qed.

(** Whenever a run exits, it has printed one error line and the code is 1. *)
Lemma run_topsis_exit (fs : filesystem) a b c d out code :
  run_topsis fs a b c d = SystemExit out code ->
  exists message, out = [("Error: " ++ message)%string] /\ code = 1%Z.
Proof.
  unfold run_topsis.
  destruct (read_and_validate_csv fs a) as [df|out1 code1|exc] eqn:Hread;
    simpl; [|intros Hexit; injection Hexit as <- <-;
             eapply read_and_validate_csv_exit; eauto | discriminate].
  destruct (parse_and_validate b c _) as [[ws imps]|out1 code1|exc] eqn:Hparse;
    simpl; [|intros Hexit; injection Hexit as <- <-;
             eapply parse_and_validate_exit; eauto | discriminate].
  destruct (to_numpy _ _) as [data|]; [|discriminate].
  destruct (topsis_calculation data ws imps) as [[sc rk]|out1 code1|exc]
    eqn:Hcalc; simpl; try discriminate.
  intros Hexit; injection Hexit as <- <-.
  destruct (topsis_calculation_exit _ _ _ _ _ Hcalc) as [-> ->].
  eexists; split; reflexivity.
Qed.

(** X3. The program run with other than four arguments prints the usage
    error, exits with 1 and leaves the files as they are.  With four
    arguments it exits with 0 and reports the output path when [run_topsis]
    returns, and in every other case it exits with 1 with the files as they
    were.  [cli] runs [main] on the arguments after the program name. *)
Theorem main_exit_codes (argv : list string) (fs : filesystem) :
  (length argv <> 4 ->
   main argv fs
   = Process fs
       ["Error: Usage: <InputDataFile> <Weights> <Impacts> <OutputResultFile>"%string]
       1%Z) /\
  (forall a b c d fs',
     argv = [a; b; c; d] -> run_topsis fs a b c d = Ok fs' ->
     main argv fs = Process fs' [("Result written to " ++ d)%string] 0%Z) /\
  (exit_code (main argv fs) <> 0%Z ->
   exit_code (main argv fs) = 1%Z /\ files (main argv fs) = fs) /\
  (forall prog, cli (prog :: argv) fs = main argv fs).
Proof.
  split; [|split; [|split]].
  - intros Hlen.
    destruct argv as [|a [|b [|c [|d [|e r]]]]]; try reflexivity.
    simpl in Hlen; congruence.
  - intros a b c d fs' -> Hrun; unfold main; rewrite Hrun; reflexivity.
  - destruct argv as [|a [|b [|c [|d [|e r]]]]]; try (intros _; split; reflexivity).
    unfold main.
    destruct (run_topsis fs a b c d) as [fs'|out code|exc] eqn:Hrun; simpl.
    + congruence.
    + intros _; destruct (run_topsis_exit _ _ _ _ _ _ _ Hrun) as (m & _ & ->).
      split; reflexivity.
    + intros _; split; reflexivity.
  - intros prog; reflexivity.
Qed.

(** X4. The first check that fails names the error: a weight that is not a
    number is reported whatever the impacts and the counts are, a wrong
    impact symbol is reported whatever the counts are, and only then a wrong
    count, with the criteria count in the message. *)
Theorem parse_and_validate_first_error (weights_arg impacts_arg : string)
  (n : Z) :
  ((exists t, In t (tokens weights_arg) /\ float_of_str t = None) ->
   parse_and_validate weights_arg impacts_arg n
   = SystemExit
       ["Error: Weights must be numeric and separated by commas"%string] 1%Z) /\
  ((forall t, In t (tokens weights_arg) -> float_of_str t <> None) ->
   (exists t, In t (tokens impacts_arg) /\ is_impact t = false) ->
   parse_and_validate weights_arg impacts_arg n
   = SystemExit
       ["Error: Impacts must be '+' or '-' and separated by commas"%string]
       1%Z) /\
  ((forall t, In t (tokens weights_arg) -> float_of_str t <> None) ->
   (forall t, In t (tokens impacts_arg) -> is_impact t = true) ->
   Z.of_nat (length (tokens weights_arg)) <> n \/
   Z.of_nat (length (tokens impacts_arg)) <> n ->
   parse_and_validate weights_arg impacts_arg n
   = SystemExit
       [("Error: Weights and impacts count must equal criteria count ("
         ++ str_of_int n ++ ")")%string] 1%Z).
Proof.
  pose proof (parse_and_validate_cases weights_arg impacts_arg n) as Hcases.
  split; [|split].
  - intros Hbad; apply traverse_None in Hbad.
    destruct Hcases as [[_ ->] | (ws & Hws & _)]; [reflexivity | congruence].
  - intros Hnum (t & Ht & Hbad).
    destruct Hcases as [[Hnone _] | (ws & _ & [[_ ->] | [(Hall & _) | (Hall & _)]])].
    + apply traverse_None in Hnone; destruct Hnone as (x & Hx & Hnone).
      exfalso; exact (Hnum x Hx Hnone).
    + reflexivity.
    + rewrite forallb_forall in Hall; rewrite (Hall t Ht) in Hbad; discriminate.
    + rewrite forallb_forall in Hall; rewrite (Hall t Ht) in Hbad; discriminate.
  - intros Hnum Himp Hcount.
    destruct Hcases as [[Hnone _] | (ws & Hws & [[Hf _] | [(_ & _ & ->) | Hok]])].
    + apply traverse_None in Hnone; destruct Hnone as (x & Hx & Hnone).
      exfalso; exact (Hnum x Hx Hnone).
    + assert (forallb is_impact (tokens impacts_arg) = true)
        by (apply forallb_forall; exact Himp).
      congruence.
    + reflexivity.
    + destruct Hok as (_ & Hw & Hi & _).
      rewrite (traverse_length _ _ _ Hws) in Hw; tauto.
Qed.

End Exits.

Lemma main_exit_codes_witness :
  @main Binary64 (StableRuntime Binary64)
    ["phones.csv"; "1,1,1,1"; "-,+,+,+"]%string disk
  = Process disk
      ["Error: Usage: <InputDataFile> <Weights> <Impacts> <OutputResultFile>"%string]
      1%Z.
Proof.
  apply (proj1 (@main_exit_codes Binary64 (StableRuntime Binary64)
                  ["phones.csv"; "1,1,1,1"; "-,+,+,+"]%string disk)).
  simpl; lia.
Defined.

Lemma parse_and_validate_first_error_witness :
  @parse_and_validate Binary64 (StableRuntime Binary64) "1,x" "+,?,-" 3
  = SystemExit
      ["Error: Weights must be numeric and separated by commas"%string] 1%Z /\
  @parse_and_validate Binary64 (StableRuntime Binary64) "1,2" "+,?,-" 3
  = SystemExit
      ["Error: Impacts must be '+' or '-' and separated by commas"%string] 1%Z.
Proof.
  split.
  - apply (proj1 (@parse_and_validate_first_error Binary64
                    (StableRuntime Binary64) "1,x" "+,?,-" 3)).
    exists "x"%string; split; [right; left|]; reflexivity.
  - apply (proj1 (proj2 (@parse_and_validate_first_error Binary64
                    (StableRuntime Binary64) "1,2" "+,?,-" 3))).
    + intros t [<- | [<- | []]]; discriminate.
    + exists "?"%string; split; [right; left|]; reflexivity.
Defined.

(** ** What a run writes *)

Section Output.

Context {F : Float64} {RT : Runtime F}.

Lemma set_column_length (df : DataFrame) name values :
  length df <= length (set_column df name values) <= length df + 1.
Proof.
  unfold set_column; destruct (existsb _ df).
  - rewrite length_map; lia.
  - rewrite length_app; simpl; lia.
Qed.

Lemma set_column_other (df : DataFrame) name values k d :
  k < length df -> fst (nth k df d) <> name ->
  nth k (set_column df name values) d = nth k df d.
Proof.
  intros Hk Hne; unfold set_column; destruct (existsb _ df).
  - rewrite (nth_map_lt _ _ _ _ d) by exact Hk.
    destruct (String.eqb_spec (fst (nth k df d)) name); [contradiction|reflexivity].
  - apply app_nth1, Hk.
Qed.

Lemma set_column_named (df : DataFrame) name values :
  In name (column_names (set_column df name values)) /\
  forall col, In col (set_column df name values) -> fst col = name ->
              snd col = values.
Proof.
  unfold set_column; destruct (existsb _ df) eqn:Hex.
  - split.
    + apply existsb_exists in Hex; destruct Hex as (col & Hcol & Heq).
      unfold column_names; rewrite map_map; apply in_map_iff.
      exists col; split; [|exact Hcol].
      rewrite Heq; simpl; apply String.eqb_eq, Heq.
    + intros col Hcol Hname; apply in_map_iff in Hcol.
      destruct Hcol as (col0 & <- & _).
      destruct (String.eqb_spec (fst col0) name); [reflexivity | contradiction].
  - split.
    + unfold column_names; rewrite map_app, in_app_iff; right; left; reflexivity.
    + intros col Hcol Hname; apply in_app_iff in Hcol.
      destruct Hcol as [Hcol | [<- | []]]; [|reflexivity].
      exfalso.
      assert (Htrue : existsb (fun c => String.eqb (fst c) name) df = true).
      { apply existsb_exists; exists col; split;
          [exact Hcol | apply String.eqb_eq, Hname]. }
      congruence.
Qed.

Lemma set_column_keeps_name (df : DataFrame) name other values :
  In other (column_names df) ->
  In other (column_names (set_column df name values)).
Proof.
  intros Hin; unfold set_column; destruct (existsb _ df).
  - unfold column_names in *; rewrite map_map.
    apply in_map_iff in Hin; destruct Hin as (col & <- & Hcol).
    apply in_map_iff; exists col; split; [|exact Hcol].
    destruct (String.eqb (fst col) name); reflexivity.
  - unfold column_names in *; rewrite map_app, in_app_iff; left; exact Hin.
Qed.

(** What a returning run has read and computed. *)
Lemma run_topsis_ok (fs fs' : filesystem) input_path weights_arg impacts_arg
  output_path :
  run_topsis fs input_path weights_arg impacts_arg output_path = Ok fs' ->
  exists df weights impacts data scores ranks,
    fs input_path = Table df /\
    read_and_validate_csv fs input_path = Ok df /\
    parse_and_validate weights_arg impacts_arg (Z.of_nat (shape1 df) - 1)
    = Ok (weights, impacts) /\
    to_numpy (iloc_from1 df) (shape0 df) = Some data /\
    topsis_calculation data weights impacts = Ok (scores, ranks) /\
    fs' = to_csv fs output_path
            (set_column (set_column df "Topsis Score" (map Num scores)) "Rank"
               (map (fun r => Int (Z.of_nat r)) ranks)).
Proof.
  unfold run_topsis.
  destruct (read_and_validate_csv fs input_path) as [df| |] eqn:Hread;
    simpl; try discriminate.
  destruct (parse_and_validate _ _ _) as [[weights impacts]| |] eqn:Hparse;
    simpl; try discriminate.
  destruct (to_numpy _ _) as [data|] eqn:Hdata; [|discriminate].
  destruct (topsis_calculation data weights impacts) as [[scores ranks]| |]
    eqn:Hcalc; simpl; try discriminate.
  intros Hok; injection Hok as <-.
  exists df, weights, impacts, data, scores, ranks; repeat split; auto.
  unfold read_and_validate_csv in Hread.
  destruct (fs input_path) as [|e|df0]; try discriminate.
  destruct (shape1 df0 <? 3); [discriminate|].
  destruct (negb _); [discriminate|].
  injection Hread as <-; reflexivity.
Qed.

(** X5. A run that returns, with an [argsort] that meets NumPy's contract,
    has written at the output path the table it read with the results of
    the computation set in it: the scores and the ranks are those
    [topsis_calculation] returns on the criteria of the table with the
    parsed weights and impacts, one score per row and the ranks a
    permutation of 1..R.  The table written keeps every column of the input
    that is not called [Topsis Score] or [Rank] at its place and unchanged,
    has a column of each of these two names holding the scores and the
    ranks, and has at most two columns more than the input. *)
Theorem run_topsis_output (fs fs' : filesystem)
  (input_path weights_arg impacts_arg output_path : string) :
  numpy_argsort F RT ->
  run_topsis fs input_path weights_arg impacts_arg output_path = Ok fs' ->
  exists df weights impacts data scores ranks table,
    fs input_path = Table df /\
    parse_and_validate weights_arg impacts_arg (Z.of_nat (shape1 df) - 1)
    = Ok (weights, impacts) /\
    to_numpy (iloc_from1 df) (shape0 df) = Some data /\
    topsis_calculation data weights impacts = Ok (scores, ranks) /\
    length scores = shape0 df /\
    Permutation ranks (seq 1 (shape0 df)) /\
    fs' output_path = Table table /\
    length df <= length table <= length df + 2 /\
    (forall k, k < length df ->
       fst (nth k df (EmptyString, [])) <> "Topsis Score"%string ->
       fst (nth k df (EmptyString, [])) <> "Rank"%string ->
       nth k table (EmptyString, []) = nth k df (EmptyString, [])) /\
    In "Topsis Score"%string (column_names table) /\
    In "Rank"%string (column_names table) /\
    (forall col, In col table -> fst col = "Topsis Score"%string ->
                 snd col = map Num scores) /\
    (forall col, In col table -> fst col = "Rank"%string ->
                 snd col = map (fun r => Int (Z.of_nat r)) ranks).
Proof.
  intros Hsorts Hrun.
  destruct (run_topsis_ok _ _ _ _ _ _ Hrun)
    as (df & ws & imps & data & scores & ranks
        & Hfs & _ & Hparse & Hdata & Hcalc & ->).
  set (df1 := set_column df "Topsis Score" (map Num scores)).
  set (ranked := map (fun r => Int (Z.of_nat r)) ranks).
  exists df, ws, imps, data, scores, ranks, (set_column df1 "Rank" ranked).
  pose proof (set_column_length df "Topsis Score" (map Num scores)) as Hlen1.
  pose proof (set_column_length df1 "Rank" ranked) as Hlen2.
  fold df1 in Hlen1.
  destruct (topsis_scores_length _ _ _ _ _ Hcalc) as [Hlen Hranks].
  destruct (to_numpy_shape _ _ _ Hdata) as [_ Hshape].
  split; [exact Hfs|].
  split; [exact Hparse|].
  split; [exact Hdata|].
  split; [exact Hcalc|].
  split; [rewrite Hlen; exact Hshape|].
  split.
  { rewrite Hranks, <- Hshape, <- Hlen.
    apply topsis_ranks_permutation, Hsorts. }
  split; [unfold to_csv; rewrite String.eqb_refl; reflexivity|].
  split; [lia|].
  split.
  { intros k Hk Hscore Hrank.
    assert (Hkeep : nth k df1 (EmptyString, []) = nth k df (EmptyString, []))
      by (apply set_column_other; assumption).
    rewrite <- Hkeep; apply set_column_other; [lia | rewrite Hkeep; exact Hrank]. }
  split.
  { apply set_column_keeps_name, set_column_named. }
  split; [apply set_column_named|].
  split; [|apply set_column_named].
  intros col Hcol Hname.
  unfold set_column in Hcol; destruct (existsb _ df1).
  - apply in_map_iff in Hcol; destruct Hcol as (col0 & Heq & Hcol0).
    destruct (String.eqb_spec (fst col0) "Rank").
    + subst col; simpl in Hname; congruence.
    + subst col0; apply (proj2 (set_column_named df "Topsis Score" _)); auto.
  - apply in_app_iff in Hcol; destruct Hcol as [Hcol | [<- | []]].
    + apply (proj2 (set_column_named df "Topsis Score" _)); auto.
    + discriminate Hname.
Qed.

End Output.

Section InPlace.

Context {F : Float64} {RT : Runtime F}.

Lemma set_column_grows (df : DataFrame) name values :
  ~ In name (column_names df) ->
  length (set_column df name values) = length df + 1.
Proof.
  intros Hnot; rewrite set_column_absent by exact Hnot.
  rewrite length_app; reflexivity.
Qed.

Lemma set_column_names_kept (df : DataFrame) name other values :
  other <> name ->
  In other (column_names (set_column df name values)) ->
  In other (column_names df).
Proof.
  intros Hne; unfold set_column, column_names; destruct (existsb _ df).
  - rewrite map_map; intros Hin; apply in_map_iff in Hin.
    destruct Hin as (col & <- & Hcol); apply in_map_iff.
    exists col; split; [|exact Hcol].
    destruct (String.eqb (fst col) name); reflexivity.
  - rewrite map_app, in_app_iff; simpl; intros [Hin | [Heq | []]];
      [exact Hin | congruence].
Qed.

(** X7. A run that writes its output over its input cannot be repeated:
    when the input did not already have both a [Topsis Score] and a [Rank]
    column, the same run on the table just written fails, because the added
    columns now count as criteria. *)
Theorem run_topsis_in_place_fails_again (fs fs' : filesystem)
  (path weights_arg impacts_arg : string) (df : DataFrame) :
  fs path = Table df ->
  ~ In "Topsis Score"%string (column_names df) \/
  ~ In "Rank"%string (column_names df) ->
  run_topsis fs path weights_arg impacts_arg path = Ok fs' ->
  exists message,
    run_topsis fs' path weights_arg impacts_arg path
    = SystemExit [("Error: " ++ message)%string] 1%Z.
Proof.
  intros Hfs Habsent Hrun.
  destruct (run_topsis_ok _ _ _ _ _ _ Hrun)
    as (df0 & ws & imps & data & scores & ranks & Hfs0 & _ & Hparse & _ & _ & ->).
  assert (df0 = df) by congruence; subst df0.
  set (table := set_column (set_column df "Topsis Score" (map Num scores))
                  "Rank" (map (fun r => Int (Z.of_nat r)) ranks)) in *.
  assert (Hgrow : length df < length table).
  { unfold table.
    pose proof (set_column_length df "Topsis Score" (map Num scores)).
    pose proof (set_column_length
                  (set_column df "Topsis Score" (map Num scores)) "Rank"
                  (map (fun r => Int (Z.of_nat r)) ranks)).
    destruct Habsent as [Hscore | Hrank].
    - rewrite (set_column_grows df) in * by exact Hscore; lia.
    - rewrite set_column_grows; [lia|].
      intros Hin; apply Hrank.
      apply (set_column_names_kept df "Topsis Score" "Rank" (map Num scores));
        [discriminate | exact Hin]. }
  assert (Hread : to_csv fs path table path = Table table).
  { unfold to_csv; rewrite String.eqb_refl; reflexivity. }
  unfold run_topsis.
  rewrite (read_and_validate_csv_cases _ _ _ Hread).
  assert (Hcols : 3 <= shape1 df).
  { destruct (shape1 df <? 3) eqn:Hlt; [|apply Nat.ltb_ge; exact Hlt].
    destruct (run_topsis_ok _ _ _ _ _ _ Hrun)
      as (? & ? & ? & ? & ? & ? & ? & Hr & _).
    rewrite (read_and_validate_csv_cases _ _ _ Hfs), Hlt in Hr; discriminate. }
  replace (shape1 table <? 3) with false
    by (symmetry; apply Nat.ltb_ge; unfold shape1 in *; lia).
  destruct (forallb _ (iloc_from1 table)); [|eexists; reflexivity].
  simpl.
  destruct (parse_and_validate_cases weights_arg impacts_arg
              (Z.of_nat (shape1 df) - 1))
    as [[_ Hp] | (ws1 & Hws1 & [[_ Hp] | [(_ & _ & Hp) | (_ & Hlen1 & _ & Hp)]])];
    rewrite Hp in Hparse; try discriminate.
  destruct (parse_and_validate_cases weights_arg impacts_arg
              (Z.of_nat (shape1 table) - 1))
    as [[_ ->] | (ws2 & Hws2 & [[_ ->] | [(_ & _ & ->) | (_ & Hlen2 & _)]])];
    try (eexists; reflexivity).
  exfalso.
  assert (ws2 = ws1) by congruence; subst ws2.
  unfold shape1 in *; lia.
Qed.

(** X8. A table that has its header and no row passes the validation of the
    table, and the run on it with valid weights and impacts fails at the
    norms: every column of no row has norm zero. *)
Theorem run_topsis_header_only (fs : filesystem)
  (input_path weights_arg impacts_arg output_path : string) (df : DataFrame)
  (weights : list num) (impacts : list string) :
  fs input_path = Table df ->
  3 <= shape1 df ->
  Forall (fun col => snd col = []) df ->
  eqb (sqrt zero) zero = true ->
  parse_and_validate weights_arg impacts_arg (Z.of_nat (shape1 df) - 1)
  = Ok (weights, impacts) ->
  read_and_validate_csv fs input_path = Ok df /\
  run_topsis fs input_path weights_arg impacts_arg output_path
  = SystemExit ["Error: Column with all zeros detected"%string] 1%Z.
Proof.
  intros Hfs Hcols Hempty Hsqrt Hparse.
  assert (Hread : read_and_validate_csv fs input_path = Ok df).
  { rewrite (read_and_validate_csv_cases _ _ _ Hfs).
    replace (shape1 df <? 3) with false by (symmetry; apply Nat.ltb_ge; exact Hcols).
    replace (forallb _ (iloc_from1 df)) with true; [reflexivity|].
    symmetry; apply forallb_forall; intros col Hcol.
    rewrite Forall_forall in Hempty; rewrite (Hempty col); [reflexivity|].
    destruct df; [destruct Hcol | right; exact Hcol]. }
  split; [exact Hread|].
  unfold run_topsis; rewrite Hread; simpl; rewrite Hparse; simpl.
  assert (Hrows : shape0 df = 0).
  { destruct df as [|[name cells] rest]; [reflexivity|].
    inversion Hempty as [|? ? Hfirst _]; subst; simpl in Hfirst |- *.
    rewrite Hfirst; reflexivity. }
  rewrite Hrows; simpl.
  rewrite topsis_calculation_cases.
  replace (existsb _ (norm_axis0 _)) with true; [reflexivity|].
  symmetry; apply exists_zero_norm; exists 0; simpl; split.
  - unfold shape1, iloc_from1 in *; destruct df; simpl in *; lia.
  - exact Hsqrt.
Qed.

End InPlace.

Lemma run_topsis_output_witness :
  exists df weights impacts data scores ranks table,
    disk "league.csv"%string = Table df /\
    @parse_and_validate Binary64 (StableRuntime Binary64) "1,1" "-,+"
      (Z.of_nat (shape1 df) - 1) = Ok (weights, impacts) /\
    @to_numpy Binary64 (StableRuntime Binary64) (iloc_from1 df) (shape0 df)
    = Some data /\
    @topsis_calculation Binary64 (StableRuntime Binary64) data weights impacts
    = Ok (scores, ranks) /\
    length scores = shape0 df /\
    Permutation ranks (seq 1 (shape0 df)) /\
    disk_after_league "out.csv"%string = Table table /\
    length df <= length table <= length df + 2 /\
    (forall k, k < length df ->
       fst (nth k df (EmptyString, [])) <> "Topsis Score"%string ->
       fst (nth k df (EmptyString, [])) <> "Rank"%string ->
       nth k table (EmptyString, []) = nth k df (EmptyString, [])) /\
    In "Topsis Score"%string (column_names table) /\
    In "Rank"%string (column_names table) /\
    (forall col, In col table -> fst col = "Topsis Score"%string ->
                 snd col = map Num scores) /\
    (forall col, In col table -> fst col = "Rank"%string ->
                 snd col = map (fun r => Int (Z.of_nat r)) ranks).
Proof.
  apply (@run_topsis_output Binary64 (StableRuntime Binary64) disk
           disk_after_league "league.csv" "1,1" "-,+" "out.csv"
           binary64_stable_runtime_sorts).
  vm_compute; reflexivity.
Defined.

Lemma run_topsis_in_place_fails_again_witness :
  exists message,
    @run_topsis Binary64 (StableRuntime Binary64) archive_after_phones
      "phones.csv" "1,1,1,1" "-,+,+,+" "phones.csv"
    = SystemExit [("Error: " ++ message)%string] 1%Z.
Proof.
  apply (@run_topsis_in_place_fails_again Binary64 (StableRuntime Binary64)
           archive archive_after_phones "phones.csv" "1,1,1,1" "-,+,+,+"
           phones).
  - reflexivity.
  - left; intros Hin; vm_compute in Hin.
    repeat destruct Hin as [Hin | Hin]; first [discriminate | contradiction].
  - vm_compute; reflexivity.
Defined.

Lemma run_topsis_header_only_witness :
  @read_and_validate_csv Binary64 (StableRuntime Binary64) archive "empty.csv"
  = Ok header_only /\
  @run_topsis Binary64 (StableRuntime Binary64) archive "empty.csv" "1,1"
    "+,-" "out.csv"
  = SystemExit ["Error: Column with all zeros detected"%string] 1%Z.
Proof.
  apply (@run_topsis_header_only Binary64 (StableRuntime Binary64) archive
           "empty.csv" "1,1" "+,-" "out.csv" header_only
           [1%float; 1%float] ["+"%string; "-"%string]).
  - reflexivity.
  - simpl; lia.
  - repeat constructor.
  - reflexivity.
  - vm_compute; reflexivity.
Defined.

(** ** Scores and ranks on binary64 *)

Section BinaryRanks.

#[local] Existing Instance Binary64.

Variable RT : Runtime Binary64.
Hypothesis numpy_sorts : numpy_argsort Binary64 RT.

(** X9. On binary64 an alternative with a strictly greater score has a
    strictly better rank, an alternative whose score is NaN is ranked after
    every alternative whose score is a number, and no alternative has a
    score strictly greater than that of the alternative ranked 1. *)
Theorem greater_score_better_rank (data : ndarray2) (weights : list num)
  (impacts : list string) (scores : list num) (ranks : list nat) :
  topsis_calculation data weights impacts = Ok (scores, ranks) ->
  (forall i j, i < length (rows data) -> j < length (rows data) ->
     ltb (nth j scores zero) (nth i scores zero) = true ->
     nth i ranks 0 < nth j ranks 0) /\
  (forall i j, i < length (rows data) -> j < length (rows data) ->
     isnan (nth i scores zero) = true -> isnan (nth j scores zero) = false ->
     nth j ranks 0 < nth i ranks 0) /\
  (rows data <> [] ->
   exists i, i < length (rows data) /\ nth i ranks 0 = 1 /\
     forall j, j < length (rows data) ->
       ltb (nth i scores zero) (nth j scores zero) = false).
Proof.
  intros Hok.
  destruct (topsis_scores_length _ _ _ _ _ Hok) as [Hlen ->].
  rewrite <- Hlen.
  pose proof (topsis_ranks_permutation numpy_sorts scores) as Hperm.
  pose proof (topsis_ranks_descending numpy_sorts scores) as Hdesc.
  set (rk := topsis_ranks scores) in *.
  pose proof (Permutation_length Hperm) as Hrl; rewrite length_seq in Hrl.
  assert (Hdup : NoDup rk).
  { apply (Permutation_NoDup (Permutation_sym Hperm)), seq_NoDup. }
  assert (Hbefore : forall i j, i < length scores -> j < length scores ->
            npy_lt (neg (nth i scores zero)) (neg (nth j scores zero)) = true ->
            nth i rk 0 < nth j rk 0).
  { intros i j Hi Hj Hlt.
    destruct (Nat.lt_trichotomy (nth i rk 0) (nth j rk 0))
      as [Hr | [Hr | Hr]];
      [exact Hr | |].
    - assert (i = j)
        by (apply (proj1 (NoDup_nth rk 0) Hdup i j);
            [rewrite Hrl; exact Hi | rewrite Hrl; exact Hj | exact Hr]).
      subst j; rewrite (binary64_npy_lt_asym _ _ Hlt) in Hlt; discriminate.
    - rewrite (Hdesc j i Hj Hi Hr) in Hlt; discriminate. }
  assert (Hstrict : forall i j, i < length scores -> j < length scores ->
            ltb (nth j scores zero) (nth i scores zero) = true ->
            nth i rk 0 < nth j rk 0).
  { intros i j Hi Hj Hlt; apply Hbefore; [exact Hi | exact Hj|].
    apply binary64_neg_reverses, Hlt. }
  split; [exact Hstrict|]; split.
  { intros i j Hi Hj Hnan Hnum; apply Hbefore; [exact Hj | exact Hi|].
    apply binary64_nan_last; assumption. }
  intros Hrows.
  assert (Hpos : 0 < length scores).
  { rewrite Hlen; destruct (rows data);
      [exfalso; apply Hrows; reflexivity | simpl; lia]. }
  assert (Hone : In 1 rk).
  { apply (Permutation_in _ (Permutation_sym Hperm)), in_seq; lia. }
  destruct (In_nth _ _ 0 Hone) as (i & Hi & Hrank).
  exists i; split; [lia|]; split; [exact Hrank|].
  intros j Hj.
  destruct (ltb (nth i scores zero) (nth j scores zero)) eqn:Hgt;
    [exfalso | reflexivity].
  specialize (Hstrict j i Hj ltac:(lia) Hgt).
  assert (Hin : In (nth j rk 0) (seq 1 (length scores))).
  { apply (Permutation_in _ Hperm), nth_In; lia. }
  apply in_seq in Hin; lia.
Qed.

End BinaryRanks.

(** The five phones: five different scores, the third the greatest. *)
Lemma greater_score_better_rank_witness :
  (forall i j, i < length (rows phones_data) -> j < length (rows phones_data) ->
     @ltb Binary64 (nth j phones_scores zero) (nth i phones_scores zero) = true ->
     nth i [3; 5; 1; 2; 4] 0 < nth j [3; 5; 1; 2; 4] 0) /\
  (forall i j, i < length (rows phones_data) -> j < length (rows phones_data) ->
     @isnan Binary64 (nth i phones_scores zero) = true ->
     @isnan Binary64 (nth j phones_scores zero) = false ->
     nth j [3; 5; 1; 2; 4] 0 < nth i [3; 5; 1; 2; 4] 0) /\
  (rows phones_data <> [] ->
   exists i, i < length (rows phones_data) /\ nth i [3; 5; 1; 2; 4] 0 = 1 /\
     forall j, j < length (rows phones_data) ->
       @ltb Binary64 (nth i phones_scores zero) (nth j phones_scores zero)
       = false).
Proof.
  apply (greater_score_better_rank (StableRuntime Binary64)
           binary64_stable_runtime_sorts phones_data quarter_weights
           phones_impacts phones_scores [3; 5; 1; 2; 4]).
  vm_compute; reflexivity.
Defined.

(** ** Equal alternatives on the reals *)

Ltac as_reals :=
  change (@num Real64) with R in *; change (@zero Real64) with 0%R in *.

Section RealScores.

#[local] Existing Instance Real64.

Lemma where_length (c : list bool) (x y : list R) :
  length c = length x -> length y = length x ->
  length (where_ c x y) = length x.
Proof.
  revert x y; induction c as [|b c IH]; intros [|u x] [|v y]; simpl;
    intros Hc Hy; try congruence.
  f_equal; apply IH; congruence.
Qed.

Lemma ideal_points_length (impacts : list string) (a : ndarray2) :
  length impacts = ncols a ->
  length (ideal_best impacts a) = ncols a /\
  length (ideal_worst impacts a) = ncols a.
Proof.
  intros Hlen; unfold ideal_best, ideal_worst.
  rewrite !where_length
    by (rewrite ?length_map, ?max_axis0_length, ?min_axis0_length; congruence).
  rewrite max_axis0_length, min_axis0_length; auto.
Qed.

Lemma Forall_zip_with_sub (u v : list R) :
  length u = length v ->
  (Forall (fun x => x = 0%R) (zip_with Rminus u v) <->
   forall j, j < length u -> nth j u 0%R = nth j v 0%R).
Proof.
  revert v; induction u as [|x u IH]; intros [|y v]; simpl; intros Hlen;
    try discriminate.
  - split; [intros _ j Hj; lia | constructor].
  - injection Hlen as Hlen; split.
    + intros Hall j Hj; inversion Hall as [|? ? Hxy Hrest]; subst.
      destruct j as [|j]; [lra | apply (proj1 (IH v Hlen) Hrest); lia].
    + intros Hnth; constructor.
      * specialize (Hnth 0 ltac:(lia)); simpl in Hnth; lra.
      * apply (IH v Hlen); intros j Hj; apply (Hnth (S j)); lia.
Qed.

(** A row is at distance zero of a point exactly when it is the point. *)
Lemma separation_zero_iff (a : ndarray2) (ideal : list R) i :
  well_shaped a -> length ideal = ncols a -> i < length (rows a) ->
  (nth i (separation a ideal) 0%R = 0%R <->
   forall j, j < ncols a -> entry a i j = nth j ideal 0%R).
Proof.
  intros Hshape Hideal Hi.
  pose proof (separation_nth a ideal i Hi) as Hsep; as_reals; rewrite Hsep.
  pose proof (row_length a i Hshape Hi) as Hrow.
  pose proof (real_norm_zero_iff (zip_with Rminus (nth i (rows a) []) ideal))
    as Hzero.
  simpl in Hzero; rewrite Reqb_true in Hzero; rewrite Hzero.
  rewrite Forall_zip_with_sub
    by (transitivity (ncols a); [exact Hrow | symmetry; exact Hideal]).
  split; intros Hall j Hj; apply Hall.
  - eapply Nat.lt_le_trans; [exact Hj | apply Nat.eq_le_incl; symmetry; exact Hrow].
  - eapply Nat.lt_le_trans; [exact Hj | apply Nat.eq_le_incl; exact Hrow].
Qed.

Lemma closeness_zero_iff (sb sw : R) :
  (0 <= sb)%R -> (0 <= sw)%R -> (closeness sb sw = 0%R <-> sw = 0%R).
Proof.
  intros Hb Hw; unfold closeness; simpl; unfold Reqb.
  destruct (Req_dec_T (sb + sw) 0) as [Hz | Hnz]; simpl.
  - split; [intros _; lra | reflexivity].
  - split.
    + intros Hq; apply (f_equal (fun q => q * (sb + sw))%R) in Hq.
      unfold Rdiv in Hq; rewrite Rmult_assoc, Rinv_l in Hq by exact Hnz; lra.
    + intros ->; unfold Rdiv; ring.
Qed.

Lemma separation_nonneg (a : ndarray2) (ideal : list R) i :
  i < length (rows a) -> (0 <= nth i (separation a ideal) 0)%R.
Proof.
  intros Hi; pose proof (separation_nth a ideal i Hi) as Hsep.
  as_reals; rewrite Hsep; apply sqrt_pos.
Qed.

(** The score of a row, from its two separations. *)
Lemma score_of_separations (RT : Runtime Real64) (data : ndarray2)
  (weights : list R) (impacts : list string) (scores : list R)
  (ranks : list nat) i :
  topsis_calculation data weights impacts = Ok (scores, ranks) ->
  i < length (rows data) ->
  nth i scores 0%R
  = closeness
      (nth i (separation (weighted_matrix data weights)
                (ideal_best impacts (weighted_matrix data weights))) 0%R)
      (nth i (separation (weighted_matrix data weights)
                (ideal_worst impacts (weighted_matrix data weights))) 0%R).
Proof.
  intros Hok Hi.
  destruct (topsis_calculation_scores data weights impacts scores ranks Hok)
    as [_ Hnth].
  destruct (Hnth i Hi) as (Hs & Hb & Hw).
  etransitivity; [exact Hs|].
  f_equal; symmetry; [exact Hb | exact Hw].
Qed.

(** X11. When all alternatives have the same values, and so when there is
    one alternative only, every score is the fallback 0; and the rank of a
    single alternative is 1. *)
Theorem equal_alternatives_score_zero (RT : Runtime Real64) (data : ndarray2)
  (weights : list R) (impacts : list string) (scores : list R)
  (ranks : list nat) :
  well_shaped data ->
  length weights = ncols data ->
  length impacts = ncols data ->
  (forall i i' j, i < length (rows data) -> i' < length (rows data) ->
     j < ncols data -> entry data i j = entry data i' j) ->
  topsis_calculation data weights impacts = Ok (scores, ranks) ->
  (forall i, i < length (rows data) -> nth i scores 0%R = 0%R) /\
  (length (rows data) = 1 -> numpy_argsort Real64 RT ->
   scores = [0%R] /\ ranks = [1]).
Proof.
  intros Hshape Hw Himp Hequal Hok.
  assert (Hzero : forall i, i < length (rows data) -> nth i scores 0%R = 0%R).
  { intros i Hi.
    rewrite (score_of_separations RT data weights impacts scores ranks i Hok Hi).
    set (weighted := weighted_matrix data weights).
    assert (Hws : well_shaped weighted)
      by (apply weighted_matrix_well_shaped; assumption).
    assert (Hrows : i < length (rows weighted))
      by (unfold weighted; rewrite weighted_matrix_rows; exact Hi).
    destruct (ideal_points_length impacts weighted Himp) as [Hbl Hwl].
    rewrite closeness_zero_iff by (apply separation_nonneg; exact Hrows).
    apply (separation_zero_iff weighted _ i Hws Hwl Hrows).
    intros j Hj; change (ncols weighted) with (ncols data) in Hj.
    assert (Hne : rows weighted <> []).
    { intros Hnil; rewrite Hnil in Hrows; simpl in Hrows; lia. }
    assert (Hsame : forall i', i' < length (rows weighted) ->
              entry weighted i' j = entry weighted i j).
    { intros i' Hi'; unfold weighted in *.
      rewrite weighted_matrix_rows in Hi'.
      pose proof (@weighted_matrix_entry Real64 data weights i j
                    Hshape Hw Hi Hj) as Hij.
      pose proof (@weighted_matrix_entry Real64 data weights i' j
                    Hshape Hw Hi' Hj) as Hi'j.
      simpl in Hij, Hi'j; rewrite Hij, Hi'j, (Hequal i' i j); auto. }
    destruct (ideal_points_nth impacts weighted j Hj Himp) as [_ Hworst].
    as_reals; rewrite Hworst.
    destruct (String.eqb (nth j impacts EmptyString) "+").
    - destruct (min_axis0_nth weighted j Hj Hne) as [(i0 & Hi0 & Heq) _].
      transitivity (entry weighted i0 j);
        [symmetry; apply Hsame, Hi0 | exact Heq].
    - destruct (max_axis0_nth weighted j Hj Hne) as [(i0 & Hi0 & Heq) _].
      transitivity (entry weighted i0 j);
        [symmetry; apply Hsame, Hi0 | exact Heq]. }
  split; [exact Hzero|].
  intros Hone Hsorts.
  destruct (topsis_scores_length _ _ _ _ _ Hok) as [Hlen ->].
  assert (Hscores : scores = [0%R]).
  { rewrite Hone in Hlen.
    destruct scores as [|s [|s' r]]; try discriminate.
    f_equal; apply (Hzero 0); lia. }
  split; [exact Hscores|].
  pose proof (topsis_ranks_permutation Hsorts scores) as Hperm.
  rewrite Hscores in Hperm |- *; simpl in Hperm.
  apply Permutation_length_1_inv, Permutation_sym, Hperm.
Qed.

End RealScores.

Lemma equal_alternatives_score_zero_witness :
  (forall i, i < length (rows tied_data) -> nth i [0%R; 0%R] 0%R = 0%R) /\
  (length (rows tied_data) = 1 ->
   numpy_argsort Real64 (StableRuntime Real64) ->
   [0%R; 0%R] = [0%R] /\ [1; 2] = [1]).
Proof.
  apply (equal_alternatives_score_zero (StableRuntime Real64) tied_data
           unit_weights ["+"%string; "+"%string] [0%R; 0%R] [1; 2]).
  - exact tied_data_well_shaped.
  - reflexivity.
  - reflexivity.
  - intros [|[|i]] [|[|i']] [|[|j]] Hi Hi' Hj; simpl in *;
      first [reflexivity | lia].
  - rewrite tied_data_scores, tied_ranks_stable; reflexivity.
Defined.

(** ** The identifier column *)

(** X15. The first column of the table is never looked at: two tables of
    as many rows that differ in their first column only are accepted or
    refused alike, with the same error, and get the same scores and ranks,
    whatever the identifiers are. *)
Theorem identifier_column_is_opaque (F : Float64) (RT : Runtime F)
  (fs1 fs2 : filesystem) (input1 input2 output1 output2 : string)
  (weights_arg impacts_arg : string)
  (id1 id2 : string * list cell) (criteria : DataFrame) :
  fs1 input1 = Table (id1 :: criteria) ->
  fs2 input2 = Table (id2 :: criteria) ->
  length (snd id1) = length (snd id2) ->
  same_scores
    (run_topsis fs1 input1 weights_arg impacts_arg output1)
    (run_topsis fs2 input2 weights_arg impacts_arg output2)
    (id1 :: criteria) (id2 :: criteria) output1 output2.
Proof.
  intros Hfs1 Hfs2 Hrows.
  destruct id1 as [name1 cells1], id2 as [name2 cells2]; simpl in Hrows.
  unfold same_scores, run_topsis.
  rewrite (read_and_validate_csv_cases _ _ _ Hfs1).
  rewrite (read_and_validate_csv_cases _ _ _ Hfs2).
  unfold shape1, iloc_from1, shape0; cbn [length tl].
  destruct (S (length criteria) <? 3); [simpl; auto|].
  destruct (forallb _ criteria); [|simpl; auto].
  cbn [bind length]; rewrite Hrows.
  destruct (parse_and_validate _ _ _) as [[weights impacts]| |]; simpl; auto.
  destruct (to_numpy criteria _) as [data|]; simpl; auto.
  destruct (topsis_calculation data weights impacts) as [[scores ranks]| |];
    simpl; auto.
  exists scores, ranks; unfold to_csv; rewrite !String.eqb_refl; auto.
Qed.

Lemma identifier_column_is_opaque_witness :
  same_scores
    (@run_topsis Binary64 (StableRuntime Binary64) shop "phones.csv"
       "1,1,1,1" "-,+,+,+" "a.csv")
    (@run_topsis Binary64 (StableRuntime Binary64) shop "renamed.csv"
       "1,1,1,1" "-,+,+,+" "b.csv")
    phones renamed_phones "a.csv" "b.csv".
Proof.
  apply (identifier_column_is_opaque Binary64 (StableRuntime Binary64)
           shop shop "phones.csv" "renamed.csv" "a.csv" "b.csv"
           "1,1,1,1" "-,+,+,+"
           ("Model"%string,
            [Text "M1"; Text "M2"; Text "M3"; Text "M4"; Text "M5"])
           ("Name"%string, [NA; Text "?"; Int 3; Text "M4"; Text "M4"])
           (tl phones)).
  - reflexivity.
  - reflexivity.
  - reflexivity.
Defined.
